(** * freem_collection_plan: the crawler (craw.py) and the downloader
    (freem_downloader.py), embedded and verified.

    Layout: the model of Python's [str] operations the two scripts use; the
    world outside the program (library functions, the remote server, the
    local disk); the two scripts, function by function; then the properties. *)

From Stdlib Require Import ZArith NArith List Lia Bool String Ascii DecimalString.
From stdpp Require Import base gmap sets list.

Local Open Scope Z_scope.

(* ===================================================================== *)
(** ** Python [str]: a sequence of Unicode code points *)
(* ===================================================================== *)

Module PyStr.

(** A code point, and a Python [str]. *)
Definition codepoint := N.
Definition str := list codepoint.

(** An ASCII literal of the source as a [str]. *)
Definition py (s : string) : str := List.map N_of_ascii (list_ascii_of_string s).

Definition slash : codepoint := 47%N.

(** [s.startswith(p)] *)
Fixpoint startswith (p s : str) : bool :=
  match p, s with
  | [], _ => true
  | _ :: _, [] => false
  | a :: p', b :: s' => N.eqb a b && startswith p' s'
  end.

(** [s.endswith(p)] *)
Definition endswith (p s : str) : bool := startswith (rev p) (rev s).

(** [sub in s] *)
Fixpoint contains (sub s : str) : bool :=
  startswith sub s ||
  match s with
  | [] => false
  | _ :: s' => contains sub s'
  end.

(** [s == t] *)
Fixpoint str_eqb (s t : str) : bool :=
  match s, t with
  | [], [] => true
  | a :: s', b :: t' => N.eqb a b && str_eqb s' t'
  | _, _ => false
  end.

(** [s in [t1, t2, ...]] *)
Definition str_in (s : str) (l : list str) : bool := existsb (str_eqb s) l.

(** [lstrip]/[rstrip] over a character predicate. *)
Fixpoint lstrip_by (f : codepoint -> bool) (s : str) : str :=
  match s with
  | [] => []
  | c :: s' => if f c then lstrip_by f s' else s
  end.

Definition rstrip_by (f : codepoint -> bool) (s : str) : str :=
  rev (lstrip_by f (rev s)).

(** [s.rstrip('/')] *)
Definition rstrip_slash (s : str) : str := rstrip_by (N.eqb slash) s.

(** CPython's [_PyUnicode_IsWhitespace]: the characters [str.strip()] removes. *)
Definition isspace (c : codepoint) : bool :=
  ((9 <=? c) && (c <=? 13) || (28 <=? c) && (c <=? 32) ||
   (c =? 133) || (c =? 160) || (c =? 5760) ||
   (8192 <=? c) && (c <=? 8202) ||
   (c =? 8232) || (c =? 8233) || (c =? 8239) || (c =? 8287) || (c =? 12288))%N.

(** [s.strip()] *)
Definition strip (s : str) : str := rstrip_by isspace (lstrip_by isspace s).

(** [s.split(sep)] for a one-character separator: never the empty list. *)
Fixpoint split_on (sep : codepoint) (s : str) : list str :=
  match s with
  | [] => [[]]
  | c :: s' =>
      if N.eqb c sep then [] :: split_on sep s'
      else match split_on sep s' with
           | [] => [[c]]
           | w :: ws => (c :: w) :: ws
           end
  end.

(** [s.split('/')[-1]] *)
Definition last_segment (s : str) : str := List.last (split_on slash s) [].

(** The digit property of a character ([Py_UNICODE_ISDIGIT]): exact below
    U+0100 (the ten ASCII digits and the superscripts two, three and one);
    above, the Unicode database decides, and it is a parameter [hi] of the
    model. *)
Definition isdigit_char (hi : codepoint -> bool) (c : codepoint) : bool :=
  if (c <? 256)%N
  then ((48 <=? c) && (c <=? 57) || (c =? 178) || (c =? 179) || (c =? 185))%N
  else hi c.

(** [s.isdigit()]: at least one character, and every character a digit. *)
Definition isdigit (hi : codepoint -> bool) (s : str) : bool :=
  match s with
  | [] => false
  | _ => forallb (isdigit_char hi) s
  end.

(** The ten characters [0] ... [9]. *)
Definition ascii_digit (c : codepoint) : bool := ((48 <=? c) && (c <=? 57))%N.

(** The character class of [clean_name]'s regular expression: backslash,
    slash, star, question mark, colon, double quote, less-than, greater-than
    and vertical bar; [re.sub] replaces each by an underscore. *)
Definition illegal_char (c : codepoint) : bool :=
  existsb (N.eqb c) [92; 47; 42; 63; 58; 34; 60; 62; 124]%N.

Definition underscore : codepoint := 95%N.

Definition clean_chars (s : str) : str :=
  List.map (fun c => if illegal_char c then underscore else c) s.

(** [str(n)] and [f"{n}"] for an integer. *)
Definition str_of_Z (n : Z) : str := py (NilZero.string_of_int (Z.to_int n)).

End PyStr.

Import PyStr.

(* ===================================================================== *)
(** ** Exceptions *)
(* ===================================================================== *)

(** What a Python call can raise, as far as the two handlers of the scripts
    tell them apart: an instance of [Exception] (network errors, timeouts,
    HTTP error statuses, decode and parse errors, OS errors), or
    [KeyboardInterrupt], which is a [BaseException] only and passes through
    [except Exception]. *)
Inductive exn := Exception | KeyboardInterrupt.

Inductive result (A : Type) : Type :=
  | Ok (a : A)
  | Raised (e : exn).
Arguments Ok {A} a.
Arguments Raised {A} e.

(** [try: body / except Exception: handler] *)
Definition try_except {A} (body : result A) (handler : A) : result A :=
  match body with
  | Ok a => Ok a
  | Raised Exception => Ok handler
  | Raised KeyboardInterrupt => Raised KeyboardInterrupt
  end.

(** [response.raise_for_status()]: an [HTTPError] for a 4xx or 5xx status. *)
Definition raise_for_status (status_code : Z) : result unit :=
  if (400 <=? status_code) && (status_code <? 600) then Raised Exception else Ok tt.

(* ===================================================================== *)
(** ** craw.py *)
(* ===================================================================== *)

Module Craw.

(** One [<a>] element as BeautifulSoup hands it over: its [href] attribute,
    and the stripped text of the [<td>] that follows the link as a sibling,
    with that of the [<td>] after that one. *)
Record anchor := {
  href : option str;
  cells : option (str * option str)
}.

(** What [session.get(url, timeout=15)] followed by
    [BeautifulSoup(response.text).find_all('a')] gives. *)
Inductive fetch :=
  | GetRaises                                          (* connection error, timeout *)
  | Response (status_code : Z) (soup : option (list anchor)). (* [None]: decoding or parsing raised *)

(** The world outside the crawler: [urllib.parse.urljoin], the Unicode
    database above U+00FF, the remote server (its answer may depend on the
    requests sent so far), and whether the OS lets a file be written. *)
Record env := {
  urljoin : str -> str -> str;
  digit_hi : codepoint -> bool;
  session_get : list str -> str -> fetch;
  can_write : str -> bool
}.

(** An entry of [parse_directory]'s result: the dict with ["type": "folder"]
    or ["type": "file"]. *)
Inductive item :=
  | FolderItem (name url parent : str)
  | FileItem (name url size date parent : str).

Record file_record := {
  original_name : str;
  file_url : str;
  file_size : str;
  file_date : str
}.

Record folder_record := {
  folder_url : str;
  files : list file_record;
  subfolders : list str
}.

(** A Python dict keyed by [str]: its items in insertion order. *)
Definition dict (V : Type) := list (str * V).

Definition dict_mem {V} (k : str) (d : dict V) : bool :=
  existsb (fun kv => str_eqb k (fst kv)) d.

Fixpoint dict_get {V} (k : str) (d : dict V) : option V :=
  match d with
  | [] => None
  | (k', v) :: d' => if str_eqb k k' then Some v else dict_get k d'
  end.

(** [d[k] = v]: an existing key keeps its place. *)
Fixpoint dict_set {V} (k : str) (v : V) (d : dict V) : dict V :=
  match d with
  | [] => [(k, v)]
  | (k', v') :: d' => if str_eqb k k' then (k', v) :: d' else (k', v') :: dict_set k v d'
  end.

(** In-place change of the object stored under [k]. *)
Fixpoint dict_alter {V} (f : V -> V) (k : str) (d : dict V) : dict V :=
  match d with
  | [] => []
  | (k', v') :: d' => if str_eqb k k' then (k', f v') :: d' else (k', v') :: dict_alter f k d'
  end.

(** One row of the rename plan, in [column_order]. *)
Record row := {
  col_folder_id : str;
  col_original_name : str;
  col_new_name : str;
  col_size : str;
  col_date : str;
  col_file_url : str;
  col_folder_url : str
}.

(** What a file on the local disk holds after the crawler wrote it. *)
Inductive document :=
  | JsonFile (structure : dict folder_record)
  | ExcelFile (rows : list row).

(** The [WebsiteCrawler] object, with the two things it acts on: the
    requests its session has sent (oldest first) and the local disk. *)
Record crawler := {
  base_url : str;
  max_depth : Z;
  max_workers : Z;
  file_structure : dict folder_record;
  visited_folders : gset str;
  requests : list str;
  disk : gmap str document
}.

(** [WebsiteCrawler(base_url, max_depth, max_workers)] *)
Definition init (base : str) (depth workers : Z) (d : gmap str document) : crawler :=
  {| base_url := base; max_depth := depth; max_workers := workers;
     file_structure := []; visited_folders := ∅; requests := []; disk := d |}.

Definition set_file_structure (f : dict folder_record -> dict folder_record) (c : crawler) : crawler :=
  {| base_url := base_url c; max_depth := max_depth c; max_workers := max_workers c;
     file_structure := f (file_structure c); visited_folders := visited_folders c;
     requests := requests c; disk := disk c |}.

(** [self.visited_folders.add(url)] *)
Definition visit (url : str) (c : crawler) : crawler :=
  {| base_url := base_url c; max_depth := max_depth c; max_workers := max_workers c;
     file_structure := file_structure c; visited_folders := {[url]} ∪ visited_folders c;
     requests := requests c; disk := disk c |}.

(** The session sends a GET for [url]. *)
Definition send (url : str) (c : crawler) : crawler :=
  {| base_url := base_url c; max_depth := max_depth c; max_workers := max_workers c;
     file_structure := file_structure c; visited_folders := visited_folders c;
     requests := requests c ++ [url]; disk := disk c |}.

Definition write_file (path : str) (doc : document) (c : crawler) : crawler :=
  {| base_url := base_url c; max_depth := max_depth c; max_workers := max_workers c;
     file_structure := file_structure c; visited_folders := visited_folders c;
     requests := requests c; disk := <[path := doc]> (disk c) |}.

Section Crawler.

Context (E : env).

(** [clean_name] *)
Definition clean_name (name : str) : str := clean_chars name.

(** [is_valid_folder] *)
Definition is_valid_folder (folder_name : str) : bool := isdigit (digit_hi E) folder_name.

(** The markers [is_valid_file] looks for. *)
Definition sort_params : list str := [py "C=N"; py "C=M"; py "C=S"; py "C=D"].

(** [is_valid_file] *)
Definition is_valid_file (h : str) : bool :=
  if startswith (py "?") h || endswith (py "/") h then false
  else if str_in h [py "../"; py "./"] then false
  else if existsb (fun param => contains param h) sort_params then false
  else true.

(** The body of [parse_directory]'s loop over the links: [items] after the
    link is handled. *)
Definition parse_link (url : str) (link : anchor) (items : list item) : list item :=
  match href link with
  | None => items
  | Some [] => items
  | Some raw =>
      let h := strip raw in
      if endswith (py "/") h then
        let folder_name := rstrip_slash h in
        if is_valid_folder folder_name
        then items ++ [FolderItem folder_name (urljoin E url h) url]
        else items
      else if is_valid_file h then
        let size := match cells link with Some (sz, _) => sz | None => [] end in
        let date := match cells link with Some (_, Some d) => d | _ => [] end in
        items ++ [FileItem (clean_name h) (urljoin E url h) size date url]
      else items
  end.

Definition parse_links (url : str) (links : list anchor) : list item :=
  fold_left (fun items link => parse_link url link items) links [].

(** The [try] block of [parse_directory], run when [sent] are the requests
    sent before it. *)
Definition parse_directory_try (url : str) (sent : list str) : result (list item) :=
  match session_get E sent url with
  | GetRaises => Raised Exception
  | Response status_code soup =>
      match raise_for_status status_code with
      | Raised e => Raised e
      | Ok _ =>
          match soup with
          | None => Raised Exception
          | Some links => Ok (parse_links url links)
          end
      end
  end.

(** [parse_directory] *)
Definition parse_directory (url : str) (depth : Z) (c : crawler) : result (list item) * crawler :=
  if depth >? max_depth c then (Ok [], c)
  else if bool_decide (url ∈ visited_folders c) then (Ok [], c)
  else
    let c1 := visit url c in
    (try_except (parse_directory_try url (requests c1)) [], send url c1).

(** The fresh record [crawl_folder] stores for a folder. *)
Definition new_folder (url : str) : folder_record :=
  {| folder_url := url; files := []; subfolders := [] |}.

Definition add_subfolder (name : str) (r : folder_record) : folder_record :=
  {| folder_url := folder_url r; files := files r; subfolders := subfolders r ++ [name] |}.

Definition add_file (f : file_record) (r : folder_record) : folder_record :=
  {| folder_url := folder_url r; files := files r ++ [f]; subfolders := subfolders r |}.

(** [crawl_folder]'s loop over the items; [recurse] is [self.crawl_folder].
    [None]: the recursion ran out of fuel. *)
Fixpoint crawl_items (recurse : str -> Z -> crawler -> option (result unit * crawler))
    (folder_id : str) (depth : Z) (items : list item) (c : crawler)
    : option (result unit * crawler) :=
  match items with
  | [] => Some (Ok tt, c)
  | FolderItem name url _ :: rest =>
      let c1 := set_file_structure (dict_alter (add_subfolder name) folder_id) c in
      match recurse url (depth + 1) c1 with
      | None => None
      | Some (Raised e, c2) => Some (Raised e, c2)
      | Some (Ok _, c2) => crawl_items recurse folder_id depth rest c2
      end
  | FileItem name url size date _ :: rest =>
      let f := {| original_name := name; file_url := url; file_size := size; file_date := date |} in
      crawl_items recurse folder_id depth rest
        (set_file_structure (dict_alter (add_file f) folder_id) c)
  end.

(** [crawl_folder], with the depth of the Python call stack bounded by
    [fuel]. *)
Fixpoint crawl_folder_fuel (fuel : nat) (url : str) (depth : Z) (c : crawler)
    : option (result unit * crawler) :=
  match fuel with
  | O => None
  | S fuel' =>
      if depth >? max_depth c then Some (Ok tt, c)
      else
        let folder_id := last_segment (rstrip_slash url) in
        if negb (isdigit (digit_hi E) folder_id) then Some (Ok tt, c)
        else if dict_mem folder_id (file_structure c) then Some (Ok tt, c)
        else
          match parse_directory url depth c with
          | (Raised e, c1) => Some (Raised e, c1)
          | (Ok [], c1) => Some (Ok tt, c1)
          | (Ok items, c1) =>
              crawl_items (crawl_folder_fuel fuel') folder_id depth items
                (set_file_structure (dict_set folder_id (new_folder url)) c1)
          end
  end.

(** Fuel that is enough for a call at [depth]: one frame per level down to
    [max_depth], and one for the call that returns at once. *)
Definition enough_fuel (c : crawler) (depth : Z) : nat := S (Z.to_nat (max_depth c + 1 - depth)).

(** [crawl_folder] *)
Definition crawl_folder (url : str) (depth : Z) (c : crawler) : option (result unit * crawler) :=
  crawl_folder_fuel (enough_fuel c depth) url depth c.

(** The root tasks [crawl] submits: [urljoin(base_url, f"{i}/")] for [i] in
    [range(1, 6315)]. *)
Definition root_urls (c : crawler) : list str :=
  List.map (fun i => urljoin E (base_url c) (str_of_Z (Z.of_nat i) ++ py "/")) (seq 1 (Z.to_nat 6314)).

(** A pool running the submitted [crawl_folder(url)] tasks one after the
    other; [future.result()] sits in a [try / except Exception], so a task's
    exception is logged and the rest still run. *)
Fixpoint run_tasks (tasks : list (str * Z)) (c : crawler) : option (result unit * crawler) :=
  match tasks with
  | [] => Some (Ok tt, c)
  | (url, depth) :: rest =>
      match crawl_folder url depth c with
      | None => None
      | Some (Raised KeyboardInterrupt, c1) => Some (Raised KeyboardInterrupt, c1)
      | Some (_, c1) => run_tasks rest c1
      end
  end.

(** [crawl] *)
Definition crawl (c : crawler) : option (result unit * crawler) :=
  run_tasks (List.map (fun u => (u, 0)) (root_urls c)) c.

(** The rows [generate_excel] collects. *)
Definition excel_rows (structure : dict folder_record) : list row :=
  flat_map (fun kv : str * folder_record =>
    let (folder_id, folder_data) := kv in
    match files folder_data with
    | [] => []
    | fs => List.map (fun file_info =>
              {| col_folder_id := folder_id;
                 col_original_name := original_name file_info;
                 col_new_name := [];
                 col_size := file_size file_info;
                 col_date := file_date file_info;
                 col_file_url := file_url file_info;
                 col_folder_url := folder_url folder_data |}) fs
    end) structure.

(** [generate_excel]: the DataFrame it returns, as its rows. *)
Definition generate_excel (output_file : str) (c : crawler) : result (list row) * crawler :=
  let data := excel_rows (file_structure c) in
  match data with
  | [] => (Ok [], c)
  | _ =>
      (* [df.to_excel] sits in a [try / except Exception] *)
      if can_write E output_file
      then (Ok data, write_file output_file (ExcelFile data) c)
      else (Ok data, c)
  end.

(** [save_to_json] *)
Definition save_to_json (output_file : str) (c : crawler)
    : result (dict folder_record) * crawler :=
  let filtered_structure :=
    List.filter (fun kv : str * folder_record =>
                   match files (snd kv) with [] => false | _ => true end)
                (file_structure c) in
  if can_write E output_file
  then (Ok filtered_structure, write_file output_file (JsonFile filtered_structure) c)
  else (Raised Exception, c).

(** The three constants of [main]. *)
Definition BASE_URL : str := py "http://ftp.airnet.ne.jp/pub/pc/freem/".
Definition EXCEL_FILE : str := py "freem_file_rename_plan.xlsx".
Definition JSON_FILE : str := py "freem_file_structure.json".

(** What [main] logs at the end: the two totals, and the DataFrame whose
    length it reports when it is not empty. *)
Record summary := {
  total_folders : nat;
  total_files : nat;
  df : list row
}.

(** [main], started on a disk [d]: crawl, save the JSON, generate the Excel
    sheet, and compute the totals from what [save_to_json] returned. *)
Definition main (d : gmap str document) : option (result summary * crawler) :=
  let crawler0 := init BASE_URL 2 20 d in
  match crawl crawler0 with
  | None => None
  | Some (Raised e, c1) => Some (Raised e, c1)
  | Some (Ok _, c1) =>
      match save_to_json JSON_FILE c1 with
      | (Raised e, c2) => Some (Raised e, c2)
      | (Ok structure, c2) =>
          match generate_excel EXCEL_FILE c2 with
          | (Raised e, c3) => Some (Raised e, c3)
          | (Ok rows, c3) =>
              Some (Ok {| total_folders := length structure;
                          total_files :=
                            list_sum (List.map (fun kv => length (files (snd kv))) structure);
                          df := rows |}, c3)
          end
      end
  end.

End Crawler.

End Craw.

(* ===================================================================== *)
(** ** freem_downloader.py *)
(* ===================================================================== *)

Module Freem.

(** The global configuration. *)
Definition MAX_WORKERS : Z := 12.
Definition CHUNK_SIZE : Z := 1024 * 128.
Definition TIMEOUT : Z := 30.
Definition RETRIES : nat := 3.

(** A [bytes] value. *)
Definition bytes := list N.

(** The [content-length] header under [int(r.headers.get('content-length', 0))]. *)
Inductive header :=
  | Absent
  | IntValue (n : Z)
  | NotAnInt.

(** A streamed response: the chunks [iter_content] yields and [f.write]
    stores before the stream ends, and how it ends ([None]: exhausted;
    [Some e]: [iter_content] or [f.write] raises [e]). *)
Record response := {
  status_code : Z;
  content_length : header;
  chunks : list bytes;
  stream_end : option exn
}.

Inductive get_outcome :=
  | GetRaises (e : exn)
  | GetResponse (r : response).

(** What the program does to the outside, in order. *)
Inductive event :=
  | Head (url : str)
  | Get (url : str)
  | Sleep (seconds : Z)
  | Makedirs (path : str).

Inductive node :=
  | File (content : bytes)
  | Directory.

(** The local disk and the events so far (oldest first). *)
Record world := {
  fs : gmap str node;
  trace : list event
}.

Definition log (e : event) (w : world) : world :=
  {| fs := fs w; trace := trace w ++ [e] |}.

Definition put (path : str) (n : node) (w : world) : world :=
  {| fs := <[path := n]> (fs w); trace := trace w |}.

(** The world outside the downloader: library functions on URLs and paths,
    and the answers of the server and of the OS, each of which may depend on
    the events so far. *)
Record env := {
  urljoin : str -> str -> str;
  url_path : str -> str;                     (* [urlparse(u).path] *)
  basename : str -> str;                     (* [os.path.basename] *)
  path_join : str -> str -> str;             (* [os.path.join] *)
  session_head : list event -> str -> result Z;                  (* the status code *)
  session_get : list event -> str -> result (list (option str)); (* the [href] of each [<a>] *)
  session_get_stream : list event -> str -> get_outcome;
  open_wb : list event -> str -> option exn; (* [Some e]: [open(path, 'wb')] raises [e] *)
  makedirs : list event -> str -> option exn
}.

Section Downloader.

Context (E : env).

(** [os.path.exists] *)
Definition exists_ (path : str) (w : world) : bool :=
  match fs w !! path with Some _ => true | None => false end.

(** The loop over [r.iter_content]: what the file holds after the chunks. *)
Definition write_chunks (cs : list bytes) : bytes :=
  fold_left (fun f chunk => match chunk with [] => f | _ => f ++ chunk end) cs [].

(** The [try] block of one attempt of [download_file]. *)
Definition download_attempt (url local_path : str) (w : world) : result unit * world :=
  let w1 := log (Get url) w in
  match session_get_stream E (trace w) url with
  | GetRaises e => (Raised e, w1)
  | GetResponse r =>
      match raise_for_status (status_code r) with
      | Raised e => (Raised e, w1)
      | Ok _ =>
          match content_length r with
          | NotAnInt => (Raised Exception, w1)
          | _ =>
              match open_wb E (trace w1) local_path with
              | Some e => (Raised e, w1)
              | None =>
                  let w2 := put local_path (File (write_chunks (chunks r))) w1 in
                  match stream_end r with
                  | Some e => (Raised e, w2)
                  | None => (Ok tt, w2)
                  end
              end
          end
      end
  end.

(** [for attempt in range(n)] of [download_file], and the [return False]
    after it. *)
Fixpoint download_attempts (n : nat) (url local_path : str) (w : world) : result bool * world :=
  match n with
  | O => (Ok false, w)
  | S n' =>
      match download_attempt url local_path w with
      | (Ok _, w1) => (Ok true, w1)
      | (Raised Exception, w1) => download_attempts n' url local_path (log (Sleep 1) w1)
      | (Raised KeyboardInterrupt, w1) => (Raised KeyboardInterrupt, w1)
      end
  end.

(** [download_file] *)
Definition download_file (url local_path : str) (w : world) : result bool * world :=
  if exists_ local_path w then (Ok true, w)
  else download_attempts RETRIES url local_path w.

(** The condition of [crawl_from_number] on a link. *)
Definition is_file_link (h : option str) : bool :=
  match h with
  | None => false
  | Some [] => false
  | Some h => negb (startswith (py "../") h || startswith (py "./") h)
              && negb (endswith (py "/") h)
  end.

(** The [files] list [crawl_from_number] builds from a listing. *)
Definition listing_files (dir_url : str) (hrefs : list (option str)) : list str :=
  flat_map (fun h => match h with
                     | Some h' => if is_file_link h then [urljoin E dir_url h'] else []
                     | None => []
                     end) hrefs.

(** The pool of [crawl_from_number]: every submitted download runs (leaving
    the [with] block waits for all of them), here one after the other;
    [future.result()] raises what a download raised. *)
Fixpoint download_all (dir : str) (files : list str) (w : world) : option exn * world :=
  match files with
  | [] => (None, w)
  | file_url :: rest =>
      let local_path := path_join E dir (basename E (url_path E file_url)) in
      let (r, w1) := download_file file_url local_path w in
      let (raised, w2) := download_all dir rest w1 in
      (match r with Raised e => Some e | Ok _ => raised end, w2)
  end.

(** The variables of [crawl_from_number]'s loop. *)
Record state := {
  current_num : Z;
  outside : world
}.

(** The [try] block of one turn of the loop; a [continue] inside it ends the
    block normally. *)
Definition loop_try (base_url save_dir : str) (s : state) : result unit * state :=
  let n := current_num s in
  let dir_url := urljoin E base_url (str_of_Z n ++ py "/") in
  let w1 := log (Head dir_url) (outside s) in
  match session_head E (trace (outside s)) dir_url with
  | Raised e => (Raised e, {| current_num := n; outside := w1 |})
  | Ok status =>
      if negb (status =? 200) then (Ok tt, {| current_num := n + 1; outside := w1 |})
      else
        let w2 := log (Get dir_url) w1 in
        match session_get E (trace w1) dir_url with
        | Raised e => (Raised e, {| current_num := n; outside := w2 |})
        | Ok hrefs =>
            match listing_files dir_url hrefs with
            | [] => (Ok tt, {| current_num := n + 1; outside := w2 |})
            | files =>
                let dir := path_join E save_dir (str_of_Z n) in
                let w3 := log (Makedirs dir) w2 in
                match makedirs E (trace w2) dir with
                | Some e => (Raised e, {| current_num := n; outside := w3 |})
                | None =>
                    match download_all dir files (put dir Directory w3) with
                    | (Some e, w4) => (Raised e, {| current_num := n; outside := w4 |})
                    | (None, w4) => (Ok tt, {| current_num := n + 1; outside := w4 |})
                    end
                end
            end
        end
  end.

Inductive control := Continue | Break.

(** One turn of [while True]: the [try] block under its two handlers. *)
Definition loop_turn (base_url save_dir : str) (s : state) : control * state :=
  match loop_try base_url save_dir s with
  | (Ok _, s1) => (Continue, s1)
  | (Raised KeyboardInterrupt, s1) => (Break, s1)
  | (Raised Exception, s1) =>
      (Continue, {| current_num := current_num s1 + 1; outside := outside s1 |})
  end.

(** [turns] turns of the loop: [inl s] when it is still running in state
    [s], [inr s] when it has left the loop by [break]. *)
Fixpoint run (turns : nat) (base_url save_dir : str) (s : state) : state + state :=
  match turns with
  | O => inl s
  | S k =>
      match loop_turn base_url save_dir s with
      | (Break, s1) => inr s1
      | (Continue, s1) => run k base_url save_dir s1
      end
  end.

(** [crawl_from_number], watched for [turns] turns. *)
Definition crawl_from_number (turns : nat) (base_url : str) (start_num : Z) (save_dir : str)
    (w : world) : state + state :=
  run turns base_url save_dir {| current_num := start_num; outside := w |}.

End Downloader.

End Freem.

(* ===================================================================== *)
(** ** A small remote tree and a few servers, for the examples *)
(* ===================================================================== *)

Module Demo.

Definition link (h : str) : Craw.anchor := {| Craw.href := Some h; Craw.cells := None |}.

(** The listing of folder 1: a sort link, the parent link, a file with its
    size and date cells, a numeric folder, a named folder, and a folder
    whose name is the superscript two (U+00B2). *)
Definition page1 : list Craw.anchor :=
  [ link (py "?C=N;O=A");
    link (py "../");
    {| Craw.href := Some (py "a.txt");
       Craw.cells := Some (py "10", Some (py "2024-01-01")) |};
    link (py "30/");
    link (py "src/");
    link [178; 47]%N ].

(** Folder 1 answers with [page1], folder 2 does not answer, folder 3 is a
    503, folder 4 lists one subfolder and no file, everything else is an
    empty listing. *)
Definition server (sent : list str) (url : str) : Craw.fetch :=
  if str_eqb url (py "http://h/1/") then Craw.Response 200 (Some page1)
  else if str_eqb url (py "http://h/2/") then Craw.GetRaises
  else if str_eqb url (py "http://h/3/") then Craw.Response 503 None
  else if str_eqb url (py "http://h/4/") then Craw.Response 200 (Some [link (py "7/")])
  else Craw.Response 200 (Some []).

Definition crawl_env : Craw.env :=
  {| Craw.urljoin := fun base h => base ++ h;
     Craw.digit_hi := fun _ => false;
     Craw.session_get := server;
     Craw.can_write := fun _ => true |}.

Definition fresh : Craw.crawler := Craw.init (py "http://h/") 2 20 ∅.

(** The crawler after folders 1, 2 and 4 were crawled. *)
Definition crawled : Craw.crawler :=
  match Craw.run_tasks crawl_env
          [(py "http://h/1/", 0); (py "http://h/2/", 0); (py "http://h/4/", 0)] fresh with
  | Some (_, c) => c
  | None => fresh
  end.

Definition abc : Freem.bytes := [97; 98; 99]%N.
Definition def : Freem.bytes := [100; 101; 102]%N.

Definition good_response : Freem.response :=
  {| Freem.status_code := 200; Freem.content_length := Freem.IntValue 6;
     Freem.chunks := [abc; []; def]; Freem.stream_end := None |}.

(** A response whose stream breaks after the first chunk. *)
Definition cut_response : Freem.response :=
  {| Freem.status_code := 200; Freem.content_length := Freem.IntValue 6;
     Freem.chunks := [abc]; Freem.stream_end := Some Exception |}.

Definition gets (t : list Freem.event) : nat :=
  length (List.filter (fun e => match e with Freem.Get _ => true | _ => false end) t).

(** The downloader's world around a given file server; every directory
    probe is a 404. *)
Definition download_env (stream : list Freem.event -> str -> Freem.get_outcome) : Freem.env :=
  {| Freem.urljoin := fun base h => base ++ h;
     Freem.url_path := fun u => u;
     Freem.basename := last_segment;
     Freem.path_join := fun a b => a ++ py "/" ++ b;
     Freem.session_head := fun _ _ => Ok 404;
     Freem.session_get := fun _ _ => Ok [];
     Freem.session_get_stream := stream;
     Freem.open_wb := fun _ _ => None;
     Freem.makedirs := fun _ _ => None |}.

(** A server that is down, one that cuts every transfer, and one that
    fails twice and then serves the file. *)
Definition down_env : Freem.env := download_env (fun _ _ => Freem.GetRaises Exception).
Definition cut_env : Freem.env := download_env (fun _ _ => Freem.GetResponse cut_response).
Definition flaky_env : Freem.env :=
  download_env (fun t _ => if (gets t <? 2)%nat then Freem.GetRaises Exception
                           else Freem.GetResponse good_response).

Definition file_url : str := py "http://h/1/a.bin".
Definition local_path : str := py "d/1/a.bin".

Definition empty_disk : Freem.world := {| Freem.fs := ∅; Freem.trace := [] |}.

(** A disk with a leftover of an earlier, broken transfer. *)
Definition leftover_disk : Freem.world :=
  {| Freem.fs := {[ local_path := Freem.File abc ]}; Freem.trace := [] |}.

(** A user who presses Ctrl-C during the third directory probe. *)
Definition interrupted_env : Freem.env :=
  {| Freem.urljoin := fun base h => base ++ h;
     Freem.url_path := fun u => u;
     Freem.basename := last_segment;
     Freem.path_join := fun a b => a ++ py "/" ++ b;
     Freem.session_head := fun t _ => if (length t <? 2)%nat then Ok 404
                                      else Raised KeyboardInterrupt;
     Freem.session_get := fun _ _ => Ok [];
     Freem.session_get_stream := fun _ _ => Freem.GetRaises Exception;
     Freem.open_wb := fun _ _ => None;
     Freem.makedirs := fun _ _ => None |}.


(** The scan after three turns against the server that is down. *)
Definition after_three_turns : Freem.state :=
  match Freem.crawl_from_number down_env 3 (py "http://h/") 731 (py "d") empty_disk with
  | inl s => s
  | inr s => s
  end.

End Demo.

(* ===================================================================== *)
(** ** Vocabulary of the properties *)
(* ===================================================================== *)

(** The href holds one of the sort markers of a listing page. *)
Definition has_sort_param (h : str) : bool :=
  existsb (fun p => contains p h) Craw.sort_params.

(** A folder entry's name is not empty, each of its characters is a digit
    for [str.isdigit], and if the name is ASCII they are decimal digits. *)
Definition digit_name (E : Craw.env) (it : Craw.item) : Prop :=
  match it with
  | Craw.FolderItem name _ _ =>
      name ≠ [] /\
      forallb (isdigit_char (Craw.digit_hi E)) name = true /\
      (forallb (fun c => (c <? 128)%N) name = true -> forallb ascii_digit name = true)
  | Craw.FileItem _ _ _ _ _ => True
  end.

(** [c'] is [c] after some crawling: the configuration is the same, no
    folder is forgotten, and every request sent in between was for a url not
    yet visited in [c], each such url once, and all of them visited in [c']. *)
Definition grows (c c' : Craw.crawler) : Prop :=
  Craw.max_depth c' = Craw.max_depth c /\
  Craw.visited_folders c ⊆ Craw.visited_folders c' /\
  exists new, Craw.requests c' = Craw.requests c ++ new /\
              NoDup new /\
              forall u, u ∈ new -> (u ∉ Craw.visited_folders c) /\ (u ∈ Craw.visited_folders c').


(** The fetch of a folder fails: [session.get] raises (network error,
    timeout), the status is an HTTP error, or decoding or parsing raises. *)
Definition fetch_failure (f : Craw.fetch) : bool :=
  match f with
  | Craw.GetRaises => true
  | Craw.Response status_code None => true
  | Craw.Response status_code (Some _) => (400 <=? status_code) && (status_code <? 600)
  end.

(** How many times [url] was requested. *)
Definition times_requested (url : str) (c : Craw.crawler) : nat :=
  length (List.filter (str_eqb url) (Craw.requests c)).

(** The row of the rename plan for file [f] of the folder stored under [k]. *)
Definition file_row (k : str) (rec : Craw.folder_record) (f : Craw.file_record) : Craw.row :=
  {| Craw.col_folder_id := k;
     Craw.col_original_name := Craw.original_name f;
     Craw.col_new_name := [];
     Craw.col_size := Craw.file_size f;
     Craw.col_date := Craw.file_date f;
     Craw.col_file_url := Craw.file_url f;
     Craw.col_folder_url := Craw.folder_url rec |}.

(** The world in which attempt number [k] (counted from 0) of
    [download_file] starts when the attempts before it failed: each failed
    attempt is followed by [time.sleep(1)]. *)
Fixpoint retry_world (E : Freem.env) (url local_path : str) (k : nat) (w : Freem.world)
    : Freem.world :=
  match k with
  | O => w
  | S k' =>
      Freem.log (Freem.Sleep 1)
        (snd (Freem.download_attempt E url local_path (retry_world E url local_path k' w)))
  end.

(** Attempt number [k] fails: its [try] block raises an [Exception]. *)
Definition attempt_fails (E : Freem.env) (url local_path : str) (k : nat) (w : Freem.world)
    : Prop :=
  fst (Freem.download_attempt E url local_path (retry_world E url local_path k w))
  = Raised Exception.

(** What an attempt that starts after the events [t] leaves in the file:
    nothing when it fails before [open] succeeds, and otherwise the chunks
    that arrived, whether or not the stream then broke. *)
Definition attempt_writes (E : Freem.env) (url local_path : str) (t : list Freem.event)
    : option Freem.bytes :=
  match Freem.session_get_stream E t url with
  | Freem.GetRaises _ => None
  | Freem.GetResponse r =>
      match raise_for_status (Freem.status_code r), Freem.content_length r,
            Freem.open_wb E (t ++ [Freem.Get url]) local_path with
      | Ok _, (Freem.Absent | Freem.IntValue _), None => Some (concat (Freem.chunks r))
      | _, _, _ => None
      end
  end.

(** Nothing the downloader calls ever raises [KeyboardInterrupt]: nobody
    presses Ctrl-C. *)
Definition never_interrupts (E : Freem.env) : Prop :=
  (forall t u, Freem.session_head E t u ≠ Raised KeyboardInterrupt) /\
  (forall t u, Freem.session_get E t u ≠ Raised KeyboardInterrupt) /\
  (forall t u, Freem.session_get_stream E t u ≠ Freem.GetRaises KeyboardInterrupt) /\
  (forall t u r, Freem.session_get_stream E t u = Freem.GetResponse r ->
                 Freem.stream_end r ≠ Some KeyboardInterrupt) /\
  (forall t p, Freem.open_wb E t p ≠ Some KeyboardInterrupt) /\
  (forall t p, Freem.makedirs E t p ≠ Some KeyboardInterrupt).

(** The keys of a dict, in insertion order. *)
Definition keys {V} (d : Craw.dict V) : list str := List.map fst d.



(** Every record stored in [c] is stored unchanged in [c']. *)
Definition keeps_records (c c' : Craw.crawler) : Prop :=
  forall k, Craw.dict_mem k (Craw.file_structure c) = true ->
            Craw.dict_get k (Craw.file_structure c') = Craw.dict_get k (Craw.file_structure c).

(** The keys of [c'] are those of [c], in the same order, followed by new
    ones, each new one once and each a digit string. *)
Definition keys_grow (E : Craw.env) (c c' : Craw.crawler) : Prop :=
  exists new, keys (Craw.file_structure c') = keys (Craw.file_structure c) ++ new /\
              NoDup new /\
              forall k, k ∈ new ->
                        (k ∉ keys (Craw.file_structure c)) /\ isdigit (Craw.digit_hi E) k = true.

(** The urls of the HEAD probes among the events. *)
Definition heads (t : list Freem.event) : list str :=
  flat_map (fun e => match e with Freem.Head u => [u] | _ => [] end) t.

(** The number of GETs among the events. *)
Definition count_gets (t : list Freem.event) : nat :=
  length (List.filter (fun e => match e with Freem.Get _ => true | _ => false end) t).

(** A folder record after the loop of [crawl_folder] has handled [items]. *)
Definition record_items (items : list Craw.item) (r : Craw.folder_record) : Craw.folder_record :=
  fold_left (fun r it => match it with
                         | Craw.FolderItem name _ _ => Craw.add_subfolder name r
                         | Craw.FileItem name url size date _ =>
                             Craw.add_file {| Craw.original_name := name; Craw.file_url := url;
                                              Craw.file_size := size; Craw.file_date := date |} r
                         end) items r.

(** A stored record is in order: it has at least one file or subfolder, its
    url was requested, and it is stored under the identifier of that url. *)
Definition record_ok (c : Craw.crawler) (k : str) (rec : Craw.folder_record) : Prop :=
  (Craw.files rec ≠ [] \/ Craw.subfolders rec ≠ []) /\
  Craw.folder_url rec ∈ Craw.requests c /\
  k = last_segment (rstrip_slash (Craw.folder_url rec)).

Definition records_ok (c : Craw.crawler) : Prop :=
  forall k rec, Craw.dict_get k (Craw.file_structure c) = Some rec -> record_ok c k rec.

(* ===================================================================== *)
(** ** Facts about the [str] operations *)
(* ===================================================================== *)

Section StrFacts.

Example py_lit : py "C=N" = [67; 61; 78]%N.
Proof. reflexivity. Qed.

Example strip_ex : strip (py "  12/ ") = py "12/".
Proof. reflexivity. Qed.

Example last_segment_ex : last_segment (rstrip_slash (py "http://h/pub/12/")) = py "12".
Proof. reflexivity. Qed.

Example str_of_Z_ex : str_of_Z 731 = py "731" /\ str_of_Z (-5) = py "-5".
Proof. split; reflexivity. Qed.

Lemma str_eqb_eq (s t : str) : str_eqb s t = true <-> s = t.
Proof.
  revert t. induction s as [|a s IH]; intros [|b t]; simpl; split; try done.
  - intros [Hab Hst]%andb_prop. apply N.eqb_eq in Hab. apply IH in Hst. congruence.
  - intros [= -> ->]. rewrite N.eqb_refl. simpl. by apply IH.
Qed.

Lemma startswith_app (p s : str) : startswith p (p ++ s) = true.
Proof. induction p as [|a p IH]; simpl; [done|]. by rewrite N.eqb_refl. Qed.

Lemma startswith_prefix (p s : str) : startswith p s = true -> exists t, s = p ++ t.
Proof.
  revert s. induction p as [|a p IH]; intros s H; simpl in *.
  - by exists s.
  - destruct s as [|b s]; [done|].
    apply andb_prop in H as [Hab Hps]. apply N.eqb_eq in Hab. subst b.
    destruct (IH _ Hps) as [t ->]. by exists t.
Qed.

(** [sub in s] holds exactly when [s] is [a ++ sub ++ b]. *)
Lemma contains_spec (sub s : str) :
  contains sub s = true <-> exists a b, s = a ++ sub ++ b.
Proof.
  split.
  - induction s as [|c s IH]; simpl; intros H.
    + apply orb_prop in H as [H|H]; [|done].
      apply startswith_prefix in H as [t ->]. by exists [], t.
    + apply orb_prop in H as [H|H].
      * apply startswith_prefix in H as [t ->]. by exists [], t.
      * destruct (IH H) as (a & b & ->). by exists (c :: a), b.
  - intros (a & b & ->). induction a as [|c a IH]; simpl.
    + destruct (sub ++ b) eqn:Hs; simpl.
      * destruct sub; [done | discriminate].
      * rewrite <- Hs, startswith_app. done.
    + rewrite IH. apply orb_true_r.
Qed.

(** Stripping on the left keeps everything from the first kept character on. *)
Lemma lstrip_by_keeps f (a : str) c (t : str) :
  f c = false -> exists a', lstrip_by f (a ++ c :: t) = a' ++ c :: t.
Proof.
  intros Hc. induction a as [|x a IH]; simpl.
  - rewrite Hc. by exists [].
  - destruct (f x); [done|]. by exists (x :: a).
Qed.

Lemma rstrip_by_keeps f (t : str) c (b : str) :
  f c = false -> exists b', rstrip_by f (t ++ c :: b) = t ++ c :: b'.
Proof.
  intros Hc. unfold rstrip_by.
  rewrite rev_app_distr. simpl. rewrite <- app_assoc. simpl.
  destruct (lstrip_by_keeps f (rev b) c (rev t) Hc) as [b' ->].
  exists (rev b'). rewrite rev_app_distr. simpl.
  rewrite rev_involutive, <- app_assoc. done.
Qed.

(** A substring that neither starts nor ends with a removable character
    survives [lstrip_by] and [rstrip_by]. *)
Lemma contains_lstrip_by f c (m s : str) :
  f c = false -> contains (c :: m) s = true -> contains (c :: m) (lstrip_by f s) = true.
Proof.
  intros Hc (a & b & ->)%contains_spec. apply contains_spec.
  simpl. destruct (lstrip_by_keeps f a c (m ++ b) Hc) as [a' Ha'].
  exists a', b. done.
Qed.

Lemma contains_rstrip_by f (m : str) c (s : str) :
  f c = false -> contains (m ++ [c]) s = true -> contains (m ++ [c]) (rstrip_by f s) = true.
Proof.
  intros Hc (a & b & ->)%contains_spec. apply contains_spec.
  replace (a ++ (m ++ [c]) ++ b) with ((a ++ m) ++ c :: b)
    by (rewrite <- !app_assoc; done).
  destruct (rstrip_by_keeps f (a ++ m) c b Hc) as [b' ->].
  exists a, b'. rewrite <- !app_assoc. done.
Qed.

Lemma contains_strip c1 (mid : str) c2 (s : str) :
  isspace c1 = false -> isspace c2 = false ->
  contains (c1 :: mid ++ [c2]) s = true ->
  contains (c1 :: mid ++ [c2]) (strip s) = true.
Proof.
  intros H1 H2 H. unfold strip.
  change (c1 :: mid ++ [c2]) with ((c1 :: mid) ++ [c2]).
  apply contains_rstrip_by; [done|]. simpl.
  by apply contains_lstrip_by.
Qed.

Lemma endswith_spec (p s : str) : endswith p s = true -> exists t, s = t ++ p.
Proof.
  unfold endswith. intros [t Ht]%startswith_prefix.
  exists (rev t). apply (f_equal (@rev _)) in Ht.
  rewrite rev_involutive, rev_app_distr, rev_involutive in Ht. done.
Qed.

Lemma isdigit_forallb hi (s : str) :
  isdigit hi s = true <-> s <> [] /\ forallb (isdigit_char hi) s = true.
Proof.
  destruct s as [|c s]; simpl.
  - split; [done | by intros [? _]].
  - split; [by intros ? | by intros [_ ?]].
Qed.

(** Below U+0080 the digits of [str.isdigit] are the ten decimal digits. *)
Lemma isdigit_char_ascii hi (c : codepoint) :
  (c < 128)%N -> isdigit_char hi c = ascii_digit c.
Proof.
  intros Hc. unfold isdigit_char, ascii_digit.
  assert ((c <? 256)%N = true) as -> by (apply N.ltb_lt; lia).
  assert ((c =? 178)%N = false) as -> by (apply N.eqb_neq; lia).
  assert ((c =? 179)%N = false) as -> by (apply N.eqb_neq; lia).
  assert ((c =? 185)%N = false) as -> by (apply N.eqb_neq; lia).
  by rewrite !orb_false_r.
Qed.

Lemma write_chunks_concat (cs : list Freem.bytes) : Freem.write_chunks cs = concat cs.
Proof.
  unfold Freem.write_chunks.
  assert (forall acc, fold_left (fun f chunk => match chunk with [] => f | _ => f ++ chunk end) cs acc
                      = acc ++ concat cs) as H.
  { induction cs as [|c cs IH]; intros acc; simpl.
    - by rewrite app_nil_r.
    - rewrite IH. destruct c; simpl; [done|]. by rewrite <- app_assoc. }
  apply H.
Qed.

End StrFacts.

(* ===================================================================== *)
(** ** Links: sort toggles, folders and files *)
(* ===================================================================== *)

Section LinkFacts.

Import Craw.

Lemma has_sort_param_spec (h : str) :
  has_sort_param h = true <-> exists p, p ∈ sort_params /\ contains p h = true.
Proof.
  unfold has_sort_param. rewrite existsb_exists. split.
  - intros (p & Hp & Hc). exists p. by rewrite list_elem_of_In.
  - intros (p & Hp & Hc). exists p. by rewrite <- list_elem_of_In.
Qed.

Lemma sort_params_eq :
  sort_params = [[67; 61; 78]; [67; 61; 77]; [67; 61; 83]; [67; 61; 68]]%N.
Proof. reflexivity. Qed.

(** [is_valid_file] rejects every href with a sort marker. *)
Lemma is_valid_file_sort_param (h : str) :
  has_sort_param h = true -> is_valid_file h = false.
Proof.
  unfold has_sort_param, is_valid_file. intros ->.
  by repeat match goal with |- context [if ?b then _ else _] => destruct b end.
Qed.

(** The four markers start with [C] and end with a letter: [strip] cannot
    cut into them. *)
Lemma has_sort_param_strip (h : str) :
  has_sort_param h = true -> has_sort_param (strip h) = true.
Proof.
  unfold has_sort_param. rewrite sort_params_eq. cbn [existsb]. rewrite !orb_false_r.
  assert (forall c, isspace c = false -> contains [67; 61; c]%N h = true ->
                    contains [67; 61; c]%N (strip h) = true) as Hone.
  { intros c Hc H. by apply (contains_strip 67%N [61%N] c). }
  intros H. repeat apply orb_prop in H as [H|H].
  all: apply Hone in H; [|done].
  all: repeat first [exact H | apply orb_true_iff; first [left; exact H | right]].
Qed.

(** A name that holds the letter [C] is not a digit string. *)
Lemma isdigit_with_C hi (a b : str) : isdigit hi (a ++ 67%N :: b) = false.
Proof.
  apply not_true_is_false. intros [_ H]%isdigit_forallb.
  rewrite forallb_app in H. apply andb_prop in H as [_ H]. simpl in H. done.
Qed.

Lemma sort_param_not_folder hi (h : str) :
  has_sort_param h = true -> isdigit hi (rstrip_slash h) = false.
Proof.
  unfold has_sort_param. rewrite sort_params_eq. cbn [existsb]. rewrite !orb_false_r.
  assert (forall c, N.eqb slash c = false -> contains [67; 61; c]%N h = true ->
                    isdigit hi (rstrip_slash h) = false) as Hone.
  { intros c Hc H.
    apply (contains_rstrip_by (N.eqb slash) [67; 61]%N c) in H; [|done].
    apply contains_spec in H as (a & b & Hab). unfold rstrip_slash.
    rewrite Hab. simpl. apply isdigit_with_C. }
  intros H. repeat apply orb_prop in H as [H|H]; by eapply Hone; [|exact H].
Qed.

Context (E : env).

(** On the crawl path a link with a sort marker adds no entry at all. *)
Lemma parse_link_sort_param (url : str) (link : anchor) (raw : str) (items : list item) :
  href link = Some raw -> has_sort_param raw = true -> parse_link E url link items = items.
Proof.
  intros Hh Hs. unfold parse_link. rewrite Hh.
  destruct raw as [|c raw]; [done|].
  apply has_sort_param_strip in Hs.
  unfold is_valid_folder. rewrite (sort_param_not_folder _ _ Hs).
  rewrite (is_valid_file_sort_param _ Hs).
  by destruct (endswith _ _).
Qed.

(** What one link adds to [items]. *)
Lemma parse_link_adds (url : str) (link : anchor) (items : list item) :
  parse_link E url link items = items
  \/ (exists raw, href link = Some raw /\ raw ≠ [] /\
        endswith (py "/") (strip raw) = true /\
        isdigit (digit_hi E) (rstrip_slash (strip raw)) = true /\
        parse_link E url link items
        = items ++ [FolderItem (rstrip_slash (strip raw)) (urljoin E url (strip raw)) url])
  \/ (exists raw size date, href link = Some raw /\ raw ≠ [] /\
        endswith (py "/") (strip raw) = false /\
        is_valid_file (strip raw) = true /\
        parse_link E url link items
        = items ++ [FileItem (clean_name (strip raw)) (urljoin E url (strip raw)) size date url]).
Proof.
  unfold parse_link. destruct (href link) as [[|c raw]|] eqn:Hh; [by left| |by left].
  destruct (endswith (py "/") (strip (c :: raw))) eqn:He.
  - unfold is_valid_folder. destruct (isdigit _ _) eqn:Hd; [|by left].
    right; left. by exists (c :: raw).
  - destruct (is_valid_file _) eqn:Hf; [|by left].
    right; right. by eexists (c :: raw), _, _.
Qed.

Lemma parse_links_Forall (P : item -> Prop) (url : str) (links : list anchor) :
  (forall link items, Forall P items -> Forall P (parse_link E url link items)) ->
  Forall P (parse_links E url links).
Proof.
  intros Hstep. unfold parse_links.
  assert (forall acc, Forall P acc ->
            Forall P (fold_left (fun items link => parse_link E url link items) links acc)) as H.
  { induction links as [|l links IH]; intros acc Hacc; simpl; [done|].
    apply IH. by apply Hstep. }
  apply H. constructor.
Qed.

(** The [try] block of [parse_directory] raises an [Exception] or gives the
    entries of the page; it never raises anything else. *)
Lemma parse_directory_try_cases (url : str) (sent : list str) :
  parse_directory_try E url sent = Raised Exception
  \/ exists links, parse_directory_try E url sent = Ok (parse_links E url links).
Proof.
  unfold parse_directory_try, raise_for_status.
  destruct (session_get E sent url) as [|st soup]; [by left|].
  destruct ((400 <=? st) && (st <? 600)); [by left|].
  destruct soup as [links|]; [right; by exists links | by left].
Qed.

Lemma parse_directory_items (url : str) (depth : Z) (c : crawler) :
  fst (parse_directory E url depth c) = Ok []
  \/ exists links, fst (parse_directory E url depth c) = Ok (parse_links E url links).
Proof.
  unfold parse_directory.
  destruct (depth >? max_depth c); [by left|].
  destruct (bool_decide _); [by left|]. simpl.
  destruct (parse_directory_try_cases url (requests c)) as [-> | [links ->]].
  - by left.
  - right. by exists links.
Qed.

Lemma digit_name_parse_link (url : str) (link : anchor) (items : list item) :
  Forall (digit_name E) items -> Forall (digit_name E) (parse_link E url link items).
Proof.
  intros Hitems.
  destruct (parse_link_adds url link items)
    as [-> | [(raw & _ & _ & _ & Hd & ->) | (raw & size & date & _ & _ & _ & _ & ->)]];
    [done| |].
  - apply Forall_app. split; [done|]. constructor; [|constructor].
    apply isdigit_forallb in Hd as [Hne Hall]. simpl. split_and!; [done..|].
    intros Hascii. clear Hne.
    induction (rstrip_slash (strip raw)) as [|x n IH]; simpl in *; [done|].
    apply andb_prop in Hall as [Hx Hall]. apply andb_prop in Hascii as [Hx' Hascii].
    rewrite isdigit_char_ascii in Hx by (by apply N.ltb_lt).
    rewrite Hx. simpl. by apply IH.
  - apply Forall_app. split; [done|]. by repeat constructor.
Qed.

End LinkFacts.

(* ===================================================================== *)
(** ** The traversal: visited folders and requests *)
(* ===================================================================== *)

Section CrawlFacts.

Import Craw.

Context (E : env).

(** Steps that touch neither the configuration, nor the visited set, nor
    the requests. *)
Lemma grows_same (c c' : crawler) :
  max_depth c' = max_depth c -> visited_folders c' = visited_folders c ->
  requests c' = requests c -> grows c c'.
Proof.
  intros Hm Hv Hr. unfold grows. rewrite Hm, Hv, Hr. split_and!; [done..|].
  exists []. rewrite app_nil_r. split_and!; [done | constructor |].
  intros u Hu. by apply elem_of_nil in Hu.
Qed.

Lemma grows_refl (c : crawler) : grows c c.
Proof. by apply grows_same. Qed.

Lemma grows_set_file_structure f (c : crawler) : grows c (set_file_structure f c).
Proof. by apply grows_same. Qed.

Lemma grows_trans (c1 c2 c3 : crawler) : grows c1 c2 -> grows c2 c3 -> grows c1 c3.
Proof.
  intros (Hm1 & Hv1 & new1 & Hr1 & Hn1 & Hf1) (Hm2 & Hv2 & new2 & Hr2 & Hn2 & Hf2).
  unfold grows. split_and!; [congruence | by etrans |].
  exists (new1 ++ new2). split_and!.
  - rewrite Hr2, Hr1. by rewrite app_assoc.
  - apply NoDup_app. split_and!; [done| |done].
    intros u Hu1 Hu2. destruct (Hf2 u Hu2) as [Hnot _]. destruct (Hf1 u Hu1) as [_ Hin]. done.
  - intros u [Hu|Hu]%elem_of_app.
    + destruct (Hf1 u Hu) as [Hnot Hin]. split; [done|]. by apply Hv2.
    + destruct (Hf2 u Hu) as [Hnot Hin]. split; [|done]. intros Hc. by apply Hnot, Hv1.
Qed.

(** A call of [parse_directory] on a visited url, or too deep, changes
    nothing and sends nothing. *)
Lemma parse_directory_visited (url : str) (depth : Z) (c : crawler) :
  url ∈ visited_folders c -> parse_directory E url depth c = (Ok [], c).
Proof.
  intros Hv. unfold parse_directory.
  destruct (depth >? max_depth c); [done|].
  by rewrite bool_decide_eq_true_2.
Qed.

(** Otherwise it marks the url, sends one request, and returns the entries,
    or none when the [try] block raised. *)
Lemma parse_directory_fresh (url : str) (depth : Z) (c : crawler) :
  (url ∉ visited_folders c) -> (depth <= max_depth c) ->
  parse_directory E url depth c
  = (try_except (parse_directory_try E url (requests c)) [], send url (visit url c)).
Proof.
  intros Hv Hd. unfold parse_directory.
  assert ((depth >? max_depth c) = false) as -> by lia.
  by rewrite bool_decide_eq_false_2.
Qed.

(** [parse_directory] never raises. *)
Lemma parse_directory_returns (url : str) (depth : Z) (c : crawler) :
  exists items, fst (parse_directory E url depth c) = Ok items.
Proof.
  destruct (parse_directory_items E url depth c) as [-> | [links ->]]; eauto.
Qed.

Lemma parse_directory_grows (url : str) (depth : Z) (c : crawler) :
  grows c (snd (parse_directory E url depth c)).
Proof.
  unfold parse_directory.
  destruct (depth >? max_depth c); [apply grows_refl|].
  case_bool_decide as Hv; [apply grows_refl|]. simpl.
  unfold grows. simpl. split_and!; [done | set_solver |].
  exists [url]. split_and!; [done | apply NoDup_singleton |].
  intros u ->%list_elem_of_singleton. set_solver.
Qed.

(** The loop of [crawl_folder], given what the recursive calls do. *)
Lemma crawl_items_spec recurse (folder_id : str) (depth : Z) (items : list item) :
  (forall url d c r c', recurse url d c = Some (r, c') -> r = Ok tt /\ grows c c') ->
  forall c r c', crawl_items recurse folder_id depth items c = Some (r, c') ->
                 r = Ok tt /\ grows c c'.
Proof.
  intros Hrec. induction items as [|it items IH]; intros c r c' H; simpl in H.
  - injection H as <- <-. split; [done | apply grows_refl].
  - destruct it as [name u p | name u size date p].
    + destruct (recurse u (depth + 1) _) as [[[[]|e] c2]|] eqn:Hr; [| |done].
      * apply Hrec in Hr as [_ Hg]. apply IH in H as [-> Hg2]. split; [done|].
        eapply grows_trans; [|exact Hg2]. eapply grows_trans; [|exact Hg].
        apply grows_set_file_structure.
      * by apply Hrec in Hr as [? _].
    + apply IH in H as [-> Hg]. split; [done|].
      eapply grows_trans; [|exact Hg]. apply grows_set_file_structure.
Qed.

(** [crawl_folder] never raises, and only ever adds requests for urls that
    were not visited before. *)
Lemma crawl_folder_fuel_spec (fuel : nat) :
  forall url depth c r c',
    crawl_folder_fuel E fuel url depth c = Some (r, c') -> r = Ok tt /\ grows c c'.
Proof.
  induction fuel as [|fuel IH]; intros url depth c r c' H; simpl in H; [done|].
  destruct (depth >? max_depth c).
  { injection H as <- <-. split; [done | apply grows_refl]. }
  destruct (negb _).
  { injection H as <- <-. split; [done | apply grows_refl]. }
  destruct (dict_mem _ _).
  { injection H as <- <-. split; [done | apply grows_refl]. }
  pose proof (parse_directory_grows url depth c) as Hg.
  destruct (parse_directory_returns url depth c) as [items Hitems].
  destruct (parse_directory E url depth c) as [r1 c1]. simpl in *. subst r1.
  destruct items as [|it items].
  { injection H as <- <-. done. }
  apply (crawl_items_spec _ _ _ _ IH) in H as [-> Hg2]. split; [done|].
  eapply grows_trans; [exact Hg|]. eapply grows_trans; [|exact Hg2].
  apply grows_set_file_structure.
Qed.

(** The loop terminates when the recursive calls do. *)
Lemma crawl_items_total recurse (folder_id : str) (depth : Z) (items : list item) (m : Z) :
  (forall url d c r c', recurse url d c = Some (r, c') -> r = Ok tt /\ grows c c') ->
  (forall url c, max_depth c = m -> exists c', recurse url (depth + 1) c = Some (Ok tt, c')) ->
  forall c, max_depth c = m ->
            exists c', crawl_items recurse folder_id depth items c = Some (Ok tt, c').
Proof.
  intros Hspec Htot. induction items as [|it items IH]; intros c Hm; simpl; [eauto|].
  destruct it as [name u p | name u size date p].
  - destruct (Htot u (set_file_structure (dict_alter (add_subfolder name) folder_id) c) Hm)
      as [c2 Hc2].
    rewrite Hc2. apply IH. apply Hspec in Hc2 as [_ (Hmax & _)]. simpl in Hmax. congruence.
  - apply IH. done.
Qed.

(** Enough fuel: the recursion goes one level deeper per call and stops
    past [max_depth]. *)
Lemma crawl_folder_fuel_total (fuel : nat) :
  forall url depth c,
    (Z.to_nat (max_depth c + 1 - depth) < fuel)%nat ->
    exists c', crawl_folder_fuel E fuel url depth c = Some (Ok tt, c').
Proof.
  induction fuel as [|fuel IH]; intros url depth c Hfuel; [lia|]. simpl.
  destruct (depth >? max_depth c) eqn:Hd; [eauto|].
  destruct (negb _); [eauto|].
  destruct (dict_mem _ _); [eauto|].
  pose proof (parse_directory_grows url depth c) as (Hmax & _).
  destruct (parse_directory_returns url depth c) as [items Hitems].
  destruct (parse_directory E url depth c) as [r1 c1]. simpl in *. subst r1.
  destruct items as [|it items]; [eauto|].
  apply (crawl_items_total _ _ _ _ (max_depth c)).
  - apply crawl_folder_fuel_spec.
  - intros u c2 Hc2. apply IH. rewrite Hc2. lia.
  - simpl. done.
Qed.

(** [crawl_folder] returns, and returns normally. *)
Lemma crawl_folder_returns (url : str) (depth : Z) (c : crawler) :
  exists c', crawl_folder E url depth c = Some (Ok tt, c') /\ grows c c'.
Proof.
  destruct (crawl_folder_fuel_total (enough_fuel c depth) url depth c) as [c' Hc'].
  { unfold enough_fuel. lia. }
  exists c'. split; [done|]. by apply crawl_folder_fuel_spec in Hc' as [_ ?].
Qed.


(** When [parse_directory] gives no entry, [crawl_folder] records nothing. *)
Lemma crawl_folder_no_items (url : str) (depth : Z) (c c' : crawler) :
  fst (parse_directory E url depth c) = Ok [] ->
  crawl_folder E url depth c = Some (Ok tt, c') ->
  file_structure c' = file_structure c.
Proof.
  unfold crawl_folder, enough_fuel. simpl. intros Hp H.
  destruct (depth >? max_depth c) eqn:Hd; [by injection H as <-|].
  destruct (negb _); [by injection H as <-|].
  destruct (dict_mem _ _); [by injection H as <-|].
  revert Hp H. unfold parse_directory. rewrite Hd.
  case_bool_decide as Hv; simpl.
  - intros _ H. by injection H as <-.
  - intros -> H. by injection H as <-.
Qed.

(** Any schedule of root tasks runs to its end. *)
Lemma run_tasks_returns (tasks : list (str * Z)) :
  forall c, exists c', run_tasks E tasks c = Some (Ok tt, c') /\ grows c c'.
Proof.
  induction tasks as [|[url depth] tasks IH]; intros c; simpl.
  - exists c. split; [done | apply grows_refl].
  - destruct (crawl_folder_returns url depth c) as (c1 & -> & Hg1).
    destruct (IH c1) as (c2 & -> & Hg2).
    exists c2. split; [done|]. by eapply grows_trans.
Qed.


Lemma filter_str_eqb_absent (url : str) (l : list str) :
  url ∉ l -> List.filter (str_eqb url) l = [].
Proof.
  induction l as [|u l IH]; intros Hn; simpl; [done|].
  destruct (str_eqb url u) eqn:Heq.
  - apply str_eqb_eq in Heq. subst u. exfalso. apply Hn. by left.
  - apply IH. intros Hin. apply Hn. by right.
Qed.

(** Once a url is visited, no later step requests it. *)
Lemma grows_visited (c c' : crawler) (url : str) :
  grows c c' -> url ∈ visited_folders c ->
  url ∈ visited_folders c' /\ times_requested url c' = times_requested url c.
Proof.
  intros (_ & Hv & new & Hr & _ & Hf) Hu. split; [by apply Hv|].
  unfold times_requested. rewrite Hr, List.filter_app, length_app.
  rewrite (filter_str_eqb_absent url new); [simpl; lia|].
  intros Hin. by destruct (Hf url Hin).
Qed.


End CrawlFacts.

(* ===================================================================== *)
(** ** The inventory and its two exports *)
(* ===================================================================== *)

Section ExportFacts.

Import Craw.

Context (E : env).

Lemma excel_rows_app (d1 d2 : dict folder_record) :
  excel_rows (d1 ++ d2) = excel_rows d1 ++ excel_rows d2.
Proof. unfold excel_rows. apply flat_map_app. Qed.

(** The rows come from the folders that have files only. *)
Lemma excel_rows_filter (d : dict folder_record) :
  excel_rows (List.filter (fun kv => match files (snd kv) with [] => false | _ => true end) d)
  = excel_rows d.
Proof.
  induction d as [|[k r] d IH]; simpl; [done|].
  destruct (files r) as [|f fs] eqn:Hf; simpl.
  - exact IH.
  - rewrite Hf, IH. done.
Qed.

Lemma generate_excel_rows (output_file : str) (c : crawler) :
  fst (generate_excel E output_file c) = Ok (excel_rows (file_structure c)).
Proof.
  unfold generate_excel. destruct (excel_rows (file_structure c)); [done|].
  by destruct (can_write E output_file).
Qed.

Lemma elem_of_excel_rows (d : dict folder_record) (r : row) :
  r ∈ excel_rows d <->
  exists k rec f, (k, rec) ∈ d /\ f ∈ files rec /\ r = file_row k rec f.
Proof.
  unfold excel_rows. rewrite list_elem_of_In, in_flat_map. split.
  - intros ([k rec] & Hin & Hr). exists k, rec.
    destruct (files rec) as [|f0 fs] eqn:Hf; [done|].
    apply in_map_iff in Hr as (f & <- & Hfin).
    exists f. by rewrite !list_elem_of_In.
  - intros (k & rec & f & Hin & Hf & ->). exists (k, rec).
    rewrite <- list_elem_of_In. split; [done|].
    destruct (files rec) as [|f0 fs] eqn:Hfs; [by apply elem_of_nil in Hf|].
    apply in_map_iff. exists f. by rewrite <- list_elem_of_In.
Qed.

End ExportFacts.

(* ===================================================================== *)
(** ** One download: attempts, retries, what is left on disk *)
(* ===================================================================== *)

Section DownloadFacts.

Import Freem.

Context (E : env).

(** Every attempt sends exactly one GET, whatever comes of it. *)
Lemma download_attempt_trace (url path : str) (w : world) :
  trace (snd (download_attempt E url path w)) = trace w ++ [Get url].
Proof.
  unfold download_attempt.
  destruct (session_get_stream E (trace w) url) as [e|r]; [done|].
  destruct (raise_for_status (status_code r)); [|done].
  destruct (content_length r); try done;
    destruct (open_wb E _ path); try done; by destruct (stream_end r).
Qed.

(** The disk after an attempt: untouched when the attempt failed before
    [open], and otherwise the file holds what was streamed. *)
Lemma download_attempt_fs (url path : str) (w : world) :
  fs (snd (download_attempt E url path w))
  = match attempt_writes E url path (trace w) with
    | Some b => <[path := File b]> (fs w)
    | None => fs w
    end.
Proof.
  unfold download_attempt, attempt_writes.
  destruct (session_get_stream E (trace w) url) as [e|r]; [done|].
  destruct (raise_for_status (status_code r)); [|done].
  destruct (content_length r); try done; simpl;
    destruct (open_wb E _ path); try done;
    rewrite <- write_chunks_concat; by destruct (stream_end r).
Qed.

Lemma download_attempt_fs_other (url path p : str) (w : world) :
  p ≠ path -> fs (snd (download_attempt E url path w)) !! p = fs w !! p.
Proof.
  intros Hp. rewrite download_attempt_fs.
  destruct (attempt_writes E url path (trace w)); [|done].
  by rewrite lookup_insert_ne.
Qed.

(** An attempt whose response is fine, whose file opens and whose stream
    runs to its end succeeds and leaves the whole body. *)
Lemma download_attempt_success (url path : str) (w : world) (r : response) :
  session_get_stream E (trace w) url = GetResponse r ->
  raise_for_status (status_code r) = Ok tt ->
  content_length r ≠ NotAnInt ->
  open_wb E (trace w ++ [Get url]) path = None ->
  stream_end r = None ->
  download_attempt E url path w
  = (Ok tt, put path (File (concat (chunks r))) (log (Get url) w)).
Proof.
  intros Hg Hs Hc Ho He. unfold download_attempt.
  rewrite Hg, Hs. simpl. rewrite Ho, He, write_chunks_concat.
  by destruct (content_length r).
Qed.

Lemma retry_world_S (url path : str) (k : nat) (w : world) :
  retry_world E url path (S k) w
  = retry_world E url path k (log (Sleep 1) (snd (download_attempt E url path w))).
Proof. induction k as [|k IH]; [done|]. simpl in *. by rewrite IH. Qed.

(** When the first [n] attempts all fail, the loop runs [n] times and
    [download_file] falls through to [return False]. *)
Lemma download_attempts_all_fail (url path : str) (n : nat) :
  forall w, (forall k, (k < n)%nat -> attempt_fails E url path k w) ->
            download_attempts E n url path w = (Ok false, retry_world E url path n w).
Proof.
  induction n as [|n IH]; intros w Hfail; [done|].
  rewrite retry_world_S. cbn [download_attempts].
  pose proof (Hfail 0%nat ltac:(lia)) as H0. unfold attempt_fails in H0. cbn [retry_world] in H0.
  destruct (download_attempt E url path w) as [r w1] eqn:Hd. cbn [fst snd] in *. subst r.
  apply IH. intros k Hk. specialize (Hfail (S k) ltac:(lia)).
  unfold attempt_fails in *. rewrite retry_world_S, Hd in Hfail. exact Hfail.
Qed.

(** When the first [n] attempts fail and the next one succeeds. *)
Lemma download_attempts_then_success (url path : str) (n m : nat) (w' : world) :
  forall w, (forall k, (k < n)%nat -> attempt_fails E url path k w) ->
            download_attempt E url path (retry_world E url path n w) = (Ok tt, w') ->
            download_attempts E (n + S m) url path w = (Ok true, w').
Proof.
  induction n as [|n IH]; intros w Hfail Hok.
  - cbn [retry_world] in Hok. cbn [Nat.add download_attempts]. by rewrite Hok.
  - rewrite retry_world_S in Hok. cbn [Nat.add download_attempts].
    pose proof (Hfail 0%nat ltac:(lia)) as H0. unfold attempt_fails in H0. cbn [retry_world] in H0.
    destruct (download_attempt E url path w) as [r w1] eqn:Hd. cbn [fst snd] in *. subst r.
    apply IH; [|done]. intros k Hk. specialize (Hfail (S k) ltac:(lia)).
    unfold attempt_fails in *. rewrite retry_world_S, Hd in Hfail. exact Hfail.
Qed.

(** Each failed attempt adds its GET and the one-second sleep. *)
Lemma retry_world_trace (url path : str) (k : nat) (w : world) :
  trace (retry_world E url path k w) = trace w ++ concat (repeat [Get url; Sleep 1] k).
Proof.
  induction k as [|k IH].
  - simpl. by rewrite app_nil_r.
  - change (repeat [Get url; Sleep 1] (S k))
      with ([Get url; Sleep 1] :: repeat [Get url; Sleep 1] k).
    rewrite repeat_cons, concat_app. cbn [retry_world log trace concat].
    rewrite download_attempt_trace, IH, app_nil_r, <- !app_assoc. done.
Qed.

Lemma retry_world_fs_other (url path p : str) (k : nat) (w : world) :
  p ≠ path -> fs (retry_world E url path k w) !! p = fs w !! p.
Proof.
  intros Hp. induction k as [|k IH]; [done|]. simpl.
  by rewrite download_attempt_fs_other.
Qed.

Lemma retry_world_fs_S (url path : str) (k : nat) (w : world) :
  fs (retry_world E url path (S k) w)
  = match attempt_writes E url path (trace (retry_world E url path k w)) with
    | Some b => <[path := File b]> (fs (retry_world E url path k w))
    | None => fs (retry_world E url path k w)
    end.
Proof. simpl. apply download_attempt_fs. Qed.

(** [download_file] lets no [Exception] out. *)
Lemma download_attempts_no_Exception (n : nat) (url path : str) :
  forall w, fst (download_attempts E n url path w) ≠ Raised Exception.
Proof.
  induction n as [|n IH]; intros w; simpl; [done|].
  destruct (download_attempt E url path w) as [[[]|[]] w1]; simpl; [done|apply IH|done].
Qed.

Lemma download_file_no_Exception (url path : str) (w : world) :
  fst (download_file E url path w) ≠ Raised Exception.
Proof.
  unfold download_file. destruct (exists_ path w); [done|].
  apply download_attempts_no_Exception.
Qed.

End DownloadFacts.

(* ===================================================================== *)
(** ** The unbounded scan *)
(* ===================================================================== *)

Section ScanFacts.

Import Freem.

Context (E : env).

(** The [try] block adds one to [current_num] exactly when it ends
    normally; when it raises, the number is still the old one. *)
Lemma loop_try_current_num (base_url save_dir : str) (s : state) :
  current_num (snd (loop_try E base_url save_dir s))
  = match fst (loop_try E base_url save_dir s) with
    | Ok _ => current_num s + 1
    | Raised _ => current_num s
    end.
Proof.
  unfold loop_try.
  destruct (session_head E _ _) as [status|e]; [|done].
  destruct (negb (status =? 200)); [done|].
  destruct (session_get E _ _) as [hrefs|e]; [|done].
  destruct (listing_files E _ hrefs) as [|f files]; [done|].
  destruct (makedirs E _ _) as [e|]; [done|].
  by destruct (download_all E _ _ _) as [[e|] w4].
Qed.

(** A turn leaves the loop exactly on [KeyboardInterrupt]; otherwise it
    goes on with the next number. *)
Lemma loop_turn_spec (base_url save_dir : str) (s : state) :
  (fst (loop_turn E base_url save_dir s) = Break
   <-> fst (loop_try E base_url save_dir s) = Raised KeyboardInterrupt) /\
  (fst (loop_turn E base_url save_dir s) = Continue ->
   current_num (snd (loop_turn E base_url save_dir s)) = current_num s + 1).
Proof.
  pose proof (loop_try_current_num base_url save_dir s) as Hn.
  unfold loop_turn.
  destruct (loop_try E base_url save_dir s) as [[[]|[]] s1]; simpl in *.
  - split; [split; done | done].
  - split; [split; done | intros _; lia].
  - split; [split; done | done].
Qed.

Context (Hquiet : never_interrupts E).

Lemma download_attempt_quiet (url path : str) (w : world) :
  fst (download_attempt E url path w) ≠ Raised KeyboardInterrupt.
Proof.
  destruct Hquiet as (_ & _ & Hg & Hs & Ho & _).
  unfold download_attempt.
  destruct (session_get_stream E (trace w) url) as [e|r] eqn:Hget.
  { simpl. intros [= ->]. by apply (Hg (trace w) url). }
  unfold raise_for_status. destruct (_ && _); [done|].
  assert (forall w1 : world,
            fst (match open_wb E (trace (log (Get url) w)) path with
                 | Some e => (Raised e, w1)
                 | None =>
                     match stream_end r with
                     | Some e => (Raised e, put path (File (write_chunks (chunks r))) w1)
                     | None => (Ok tt, put path (File (write_chunks (chunks r))) w1)
                     end
                 end) ≠ Raised KeyboardInterrupt) as Hrest.
  { intros w1. destruct (open_wb E _ path) as [e|] eqn:Hopen.
    - simpl. intros [= ->]. by apply (Ho _ _ Hopen).
    - destruct (stream_end r) as [e|] eqn:Hend; [|done].
      simpl. intros [= ->]. by apply (Hs _ _ _ Hget). }
  destruct (content_length r); [apply Hrest | apply Hrest | done].
Qed.

Lemma download_attempts_quiet (n : nat) (url path : str) :
  forall w, exists b, fst (download_attempts E n url path w) = Ok b.
Proof.
  induction n as [|n IH]; intros w; simpl; [eauto|].
  pose proof (download_attempt_quiet url path w) as Hq.
  destruct (download_attempt E url path w) as [[[]|[]] w1]; simpl in *; [eauto|apply IH|done].
Qed.

(** Without [KeyboardInterrupt], [download_file] returns a boolean. *)
Lemma download_file_quiet (url path : str) (w : world) :
  exists b, fst (download_file E url path w) = Ok b.
Proof.
  unfold download_file. destruct (exists_ path w); [eauto|].
  apply download_attempts_quiet.
Qed.

Lemma download_all_quiet (dir : str) (files : list str) :
  forall w, fst (download_all E dir files w) = None.
Proof.
  induction files as [|f files IH]; intros w; simpl; [done|].
  destruct (download_file_quiet f (path_join E dir (basename E (url_path E f))) w) as [b Hb].
  destruct (download_file E f _ w) as [r w1]. simpl in Hb. subst r.
  specialize (IH w1). by destruct (download_all E dir files w1) as [raised w2].
Qed.

Lemma loop_try_quiet (base_url save_dir : str) (s : state) :
  fst (loop_try E base_url save_dir s) ≠ Raised KeyboardInterrupt.
Proof.
  pose proof Hquiet as (Hh & Hg & _ & _ & _ & Hm).
  unfold loop_try.
  destruct (session_head E _ _) as [status|e] eqn:Hhead.
  2:{ simpl. intros [= ->]. by apply (Hh _ _ Hhead). }
  destruct (negb (status =? 200)); [done|].
  destruct (session_get E _ _) as [hrefs|e] eqn:Hget.
  2:{ simpl. intros [= ->]. by apply (Hg _ _ Hget). }
  destruct (listing_files E _ hrefs) as [|f files]; [done|].
  destruct (makedirs E _ _) as [e|] eqn:Hmk.
  { simpl. intros [= ->]. by apply (Hm _ _ Hmk). }
  match goal with |- context [download_all E ?d ?fs ?w] =>
    pose proof (download_all_quiet d fs w) as Hd; destruct (download_all E d fs w) as [raised w4]
  end.
  simpl in Hd. by subst raised.
Qed.

(** Without [KeyboardInterrupt] the loop is still running after any number
    of turns, that many numbers further. *)
Lemma run_quiet (base_url save_dir : str) (turns : nat) :
  forall s, exists s', run E turns base_url save_dir s = inl s'
                       /\ current_num s' = current_num s + Z.of_nat turns.
Proof.
  induction turns as [|k IH]; intros s.
  - exists s. split; [done | simpl; lia].
  - cbn [run].
    destruct (loop_turn_spec base_url save_dir s) as [[Hbreak _] Hnext].
    pose proof (loop_try_quiet base_url save_dir s) as Hq.
    destruct (loop_turn E base_url save_dir s) as [[] s1]; simpl in *.
    + destruct (IH s1) as (s' & -> & Hs'). exists s'. split; [done|].
      rewrite Hs', Hnext by done. lia.
    + by destruct Hq; apply Hbreak.
Qed.

End ScanFacts.

Section ScanStops.

Import Freem.

Context (E : env).

(** The loop is left only in a turn whose [try] block raises
    [KeyboardInterrupt]. *)
Lemma run_break (base_url save_dir : str) (turns : nat) :
  forall s s', run E turns base_url save_dir s = inr s' ->
               exists s0, fst (loop_try E base_url save_dir s0) = Raised KeyboardInterrupt.
Proof.
  induction turns as [|k IH]; intros s s' H; [done|]. cbn [run] in H.
  destruct (loop_turn_spec E base_url save_dir s) as [[Hbreak _] _].
  destruct (loop_turn E base_url save_dir s) as [[] s1]; simpl in *.
  - by apply IH in H.
  - exists s. by apply Hbreak.
Qed.

End ScanStops.

(* ===================================================================== *)
(** ** Properties of the crawler *)
(* ===================================================================== *)

Section CrawlerClaims.

Import Craw.

Lemma fetch_failure_try (E : env) (url : str) (sent : list str) :
  fetch_failure (session_get E sent url) = true ->
  parse_directory_try E url sent = Raised Exception.
Proof.
  unfold parse_directory_try, fetch_failure, raise_for_status.
  destruct (session_get E sent url) as [|st [links|]]; [done| |].
  - by intros ->.
  - intros _. by destruct (_ && _).
Qed.

(** A failed fetch: [crawl_folder] either never got to it (the state is
    untouched) or marked the url, sent the one request, and stored nothing. *)
Lemma crawl_folder_failure (E : env) (url : str) (depth : Z) (c : crawler) :
  fetch_failure (session_get E (requests c) url) = true ->
  crawl_folder E url depth c = Some (Ok tt, c)
  \/ ((url ∉ visited_folders c) /\
      crawl_folder E url depth c = Some (Ok tt, send url (visit url c))).
Proof.
  intros Hf. unfold crawl_folder, enough_fuel. simpl.
  destruct (depth >? max_depth c) eqn:Hd; [by left|].
  destruct (negb _); [by left|].
  destruct (dict_mem _ _); [by left|].
  destruct (decide (url ∈ visited_folders c)) as [Hv|Hv].
  - left. by rewrite parse_directory_visited.
  - right. split; [done|].
    rewrite parse_directory_fresh by (done || lia).
    by rewrite (fetch_failure_try _ _ _ Hf).
Qed.

Lemma sublist_List_filter {A} (f : A -> bool) (l : list A) : sublist (List.filter f l) l.
Proof.
  induction l as [|x l IH]; simpl; [constructor|].
  destruct (f x); by constructor.
Qed.


(** C7. [parse_directory] never raises, and [crawl_folder] always returns
    normally, so nothing reaches the loop of a parent folder or the other
    root tasks. When the fetch of the folder fails (network error, timeout,
    HTTP error status, decode or parse error), [parse_directory] returns no
    entry; [crawl_folder] stores nothing in [file_structure]; and if the
    request was sent at all, the url is marked visited, so no later task
    requests it again. *)
Theorem folder_failure_contained (E : env) (url : str) (depth : Z) (c : crawler) :
  (exists items, fst (parse_directory E url depth c) = Ok items) /\
  (exists c', crawl_folder E url depth c = Some (Ok tt, c')) /\
  (forall tasks, exists c', run_tasks E tasks c = Some (Ok tt, c')) /\
  (fetch_failure (session_get E (requests c) url) = true ->
     fst (parse_directory E url depth c) = Ok [] /\
     exists c', crawl_folder E url depth c = Some (Ok tt, c') /\
       file_structure c' = file_structure c /\
       (c' = c \/
        (c' = send url (visit url c) /\ url ∈ visited_folders c' /\
         forall tasks, exists c'', run_tasks E tasks c' = Some (Ok tt, c'') /\
                                   times_requested url c'' = times_requested url c'))).
Proof.
  split_and!.
  - apply parse_directory_returns.
  - destruct (crawl_folder_returns E url depth c) as (c' & Hc' & _). by exists c'.
  - intros tasks. destruct (run_tasks_returns E tasks c) as (c' & Hc' & _). by exists c'.
  - intros Hf. split.
    + unfold parse_directory.
      destruct (depth >? max_depth c); [done|]. destruct (bool_decide _); [done|].
      simpl. by rewrite (fetch_failure_try _ _ _ Hf).
    + destruct (crawl_folder_failure E url depth c Hf) as [Hc' | [Hv Hc']].
      * exists c. split_and!; [done | done | by left].
      * exists (send url (visit url c)). split_and!; [done | done |].
        right. assert (url ∈ visited_folders (send url (visit url c))) as Hin.
        { simpl. set_solver. }
        split_and!; [done | done |].
        intros tasks.
        destruct (run_tasks_returns E tasks (send url (visit url c))) as (c'' & Hrun & Hg).
        exists c''. split; [done|]. by apply (grows_visited _ c'' url Hg).
Qed.

(** C8, as amended. Every folder entry [parse_directory] returns has a name
    that is not empty and on which [str.isdigit] holds: each character has
    the Unicode digit property. For a name of ASCII characters that means
    the decimal digits 0-9. An href that ends in a separator is kept as a
    folder exactly when its name, trailing separators stripped, passes
    [isdigit]; the parent link [../] and every link with a sort marker add
    nothing. *)
Theorem folder_names_pass_isdigit (E : env) (url : str) (depth : Z) (c : crawler) :
  (exists items, fst (parse_directory E url depth c) = Ok items /\ Forall (digit_name E) items) /\
  (forall link raw items, href link = Some raw -> raw ≠ [] ->
     endswith (py "/") (strip raw) = true ->
     parse_link E url link items
     = if isdigit (digit_hi E) (rstrip_slash (strip raw))
       then items ++ [FolderItem (rstrip_slash (strip raw)) (urljoin E url (strip raw)) url]
       else items) /\
  (forall link items, href link = Some (py "../") -> parse_link E url link items = items) /\
  (forall link raw items, href link = Some raw -> has_sort_param raw = true ->
     parse_link E url link items = items).
Proof.
  split_and!.
  - destruct (parse_directory_items E url depth c) as [-> | [links ->]].
    + exists []. split; [done | constructor].
    + exists (parse_links E url links). split; [done|].
      apply parse_links_Forall. apply digit_name_parse_link.
  - intros link raw items Hh Hne He. unfold parse_link. rewrite Hh.
    destruct raw as [|x raw]; [done|]. by rewrite He.
  - intros link items Hh. unfold parse_link. by rewrite Hh.
  - intros link raw items. apply parse_link_sort_param.
Qed.

(** C9. When the JSON file can be written, what [save_to_json] persists (and
    returns) holds exactly the entries of [file_structure] whose [files] list
    is not empty, in their order; and the rows of [generate_excel] are the
    rows of that persisted form: one per file, none for a folder without
    files. *)
Theorem persisted_inventory_has_files (E : env) (output_file excel_file : str) (c : crawler) :
  can_write E output_file = true ->
  exists filtered,
    save_to_json E output_file c
    = (Ok filtered, write_file output_file (JsonFile filtered) c) /\
    disk (snd (save_to_json E output_file c)) !! output_file = Some (JsonFile filtered) /\
    (forall k rec, (k, rec) ∈ filtered <-> (k, rec) ∈ file_structure c /\ files rec ≠ []) /\
    sublist filtered (file_structure c) /\
    fst (generate_excel E excel_file c) = Ok (excel_rows filtered) /\
    (forall r, r ∈ excel_rows filtered <->
               exists k rec f, (k, rec) ∈ file_structure c /\ f ∈ files rec /\
                               r = file_row k rec f).
Proof.
  intros Hw. unfold save_to_json. rewrite Hw.
  eexists. split_and!.
  - reflexivity.
  - simpl. apply lookup_insert_eq.
  - intros k rec. rewrite !list_elem_of_In, filter_In. simpl.
    split; intros [Hin Hf]; (split; [done|]); by destruct (files rec).
  - apply sublist_List_filter.
  - rewrite generate_excel_rows. by rewrite excel_rows_filter.
  - intros r. rewrite excel_rows_filter. apply elem_of_excel_rows.
Qed.

(** C10. Neither [save_to_json] nor [generate_excel] changes the crawler:
    [file_structure] is the same after as before, folders without files
    included, and so are the visited set and the requests; on the disk only
    the output file can differ. This holds whether or not the file could be
    written. *)
Theorem exports_keep_inventory (E : env) (output_file : str) (c : crawler) :
  (let c' := snd (save_to_json E output_file c) in
   file_structure c' = file_structure c /\
   visited_folders c' = visited_folders c /\
   requests c' = requests c /\
   forall p, p ≠ output_file -> disk c' !! p = disk c !! p) /\
  (let c' := snd (generate_excel E output_file c) in
   file_structure c' = file_structure c /\
   visited_folders c' = visited_folders c /\
   requests c' = requests c /\
   forall p, p ≠ output_file -> disk c' !! p = disk c !! p).
Proof.
  split.
  - unfold save_to_json. destruct (can_write E output_file); simpl; split_and!; try done.
    intros p Hp. by rewrite lookup_insert_ne.
  - unfold generate_excel. destruct (excel_rows (file_structure c)); [done|].
    destruct (can_write E output_file); simpl; split_and!; try done.
    intros p Hp. by rewrite lookup_insert_ne.
Qed.

(** C3. On the crawl path no href with a sort marker becomes an entry:
    [is_valid_file] rejects it and [parse_directory]'s loop adds nothing for
    it. The link test of [crawl_from_number] has no such check: the sort
    link of a listing page passes it and lands in [files]. *)
Theorem sort_link_crawl_and_download (E : env) (D : Freem.env) :
  (forall h, has_sort_param h = true -> is_valid_file h = false) /\
  (forall url link raw items, href link = Some raw -> has_sort_param raw = true ->
     parse_link E url link items = items) /\
  has_sort_param (py "?C=N;O=A") = true /\
  Freem.is_file_link (Some (py "?C=N;O=A")) = true /\
  (forall dir_url, Freem.listing_files D dir_url [Some (py "?C=N;O=A")]
                   = [Freem.urljoin D dir_url (py "?C=N;O=A")]).
Proof.
  split_and!.
  - apply is_valid_file_sort_param.
  - intros url link raw items. apply parse_link_sort_param.
  - reflexivity.
  - reflexivity.
  - reflexivity.
Qed.

End CrawlerClaims.

(* ===================================================================== *)
(** ** Properties of the downloader *)
(* ===================================================================== *)

Section DownloaderClaims.

Import Freem.

Lemma exists_false_lookup (path : str) (w : world) :
  exists_ path w = false -> fs w !! path = None.
Proof. unfold exists_. by destruct (fs w !! path). Qed.

(** C5. If anything exists at [local_path], [download_file] returns [True]
    at once: the world is the same afterwards, so no request was sent and
    the disk, the existing file included, is what it was, whatever that file
    holds. *)
Theorem existing_file_is_skipped (E : env) (url local_path : str) (w : world) :
  exists_ local_path w = true ->
  download_file E url local_path w = (Ok true, w) /\
  trace (snd (download_file E url local_path w)) = trace w /\
  fs (snd (download_file E url local_path w)) = fs w.
Proof. intros He. unfold download_file. by rewrite He. Qed.

(** C2, as amended. If nothing exists at [local_path] and each of the three
    attempts fails with an [Exception], [download_file] returns [False]
    without raising; it has sent exactly three GETs, each followed by a
    one-second sleep (also the last); the rest of the disk is untouched; and
    [local_path] holds what the last attempt that got as far as opening the
    file wrote before it failed, or does not exist if no attempt opened
    it. Nothing removes a partial file. *)
Theorem failed_download_result (E : env) (url local_path : str) (w : world) :
  exists_ local_path w = false ->
  (forall k, (k < RETRIES)%nat -> attempt_fails E url local_path k w) ->
  exists w',
    download_file E url local_path w = (Ok false, w') /\
    trace w' = trace w ++ [Get url; Sleep 1; Get url; Sleep 1; Get url; Sleep 1] /\
    (forall p, p ≠ local_path -> fs w' !! p = fs w !! p) /\
    fs w' !! local_path
    = File <$>
        match attempt_writes E url local_path (trace w ++ [Get url; Sleep 1; Get url; Sleep 1]) with
        | Some b => Some b
        | None =>
            match attempt_writes E url local_path (trace w ++ [Get url; Sleep 1]) with
            | Some b => Some b
            | None => attempt_writes E url local_path (trace w)
            end
        end.
Proof.
  intros He Hfail. exists (retry_world E url local_path RETRIES w). split_and!.
  - unfold download_file. rewrite He. by apply download_attempts_all_fail.
  - by rewrite retry_world_trace.
  - intros p Hp. by apply retry_world_fs_other.
  - apply exists_false_lookup in He. unfold RETRIES.
    rewrite retry_world_fs_S, (retry_world_trace E url local_path 2). simpl concat.
    destruct (attempt_writes E url local_path (trace w ++ _)) as [b2|].
    { by rewrite lookup_insert_eq. }
    rewrite retry_world_fs_S, (retry_world_trace E url local_path 1). simpl concat.
    destruct (attempt_writes E url local_path (trace w ++ _)) as [b1|].
    { by rewrite lookup_insert_eq. }
    rewrite retry_world_fs_S. simpl retry_world.
    destruct (attempt_writes E url local_path (trace w)) as [b0|].
    { by rewrite lookup_insert_eq. }
    by rewrite He.
Qed.

(** C6. If nothing exists at [local_path], the first two attempts fail with
    an [Exception], and the third gets a good response whose stream runs to
    its end into a file that opens, then [download_file] returns [True], the
    file holds exactly the body of the third response (its chunks in order),
    whatever the failed attempts had written, the rest of the disk is
    untouched, and three GETs with two sleeps between them were made. *)
Theorem third_attempt_success (E : env) (url local_path : str) (w : world) (r : response) :
  exists_ local_path w = false ->
  attempt_fails E url local_path 0 w ->
  attempt_fails E url local_path 1 w ->
  session_get_stream E (trace w ++ [Get url; Sleep 1; Get url; Sleep 1]) url = GetResponse r ->
  raise_for_status (status_code r) = Ok tt ->
  content_length r ≠ NotAnInt ->
  open_wb E (trace w ++ [Get url; Sleep 1; Get url; Sleep 1; Get url]) local_path = None ->
  stream_end r = None ->
  exists w',
    download_file E url local_path w = (Ok true, w') /\
    fs w' !! local_path = Some (File (concat (chunks r))) /\
    (forall p, p ≠ local_path -> fs w' !! p = fs w !! p) /\
    trace w' = trace w ++ [Get url; Sleep 1; Get url; Sleep 1; Get url].
Proof.
  intros He H0 H1 Hget Hst Hcl Hopen Hend.
  pose proof (retry_world_trace E url local_path 2 w) as Ht. simpl concat in Ht.
  rewrite <- Ht in Hget.
  replace (trace w ++ [Get url; Sleep 1; Get url; Sleep 1; Get url])
    with (trace (retry_world E url local_path 2 w) ++ [Get url]) in Hopen
    by (rewrite Ht, <- app_assoc; done).
  pose proof (download_attempt_success E url local_path _ r Hget Hst Hcl Hopen Hend) as Hok.
  eexists. split_and!.
  - unfold download_file. rewrite He.
    apply (download_attempts_then_success E url local_path 2 0); [|exact Hok].
    intros k Hk. destruct k as [|[|k]]; [done | done | lia].
  - simpl. apply lookup_insert_eq.
  - intros p Hp. cbn [put fs log]. rewrite lookup_insert_ne by done.
    by apply retry_world_fs_other.
  - cbn [put trace log]. rewrite Ht, <- app_assoc. done.
Qed.

(** C4. A turn of the loop of [crawl_from_number] leaves it exactly when its
    [try] block raises [KeyboardInterrupt]; every other turn goes on with
    [current_num + 1]: after a HEAD status other than 200, after a listing
    without file links, after a completed directory and after an
    [Exception]. So no run of the loop ends without a [KeyboardInterrupt],
    and when none ever comes the loop is still running after any number of
    turns, at [start_num] plus that number. *)
Theorem scan_stops_only_on_interrupt (E : env) (base_url save_dir : str) :
  (forall s,
     (fst (loop_turn E base_url save_dir s) = Break
      <-> fst (loop_try E base_url save_dir s) = Raised KeyboardInterrupt) /\
     (fst (loop_turn E base_url save_dir s) = Continue ->
      current_num (snd (loop_turn E base_url save_dir s)) = current_num s + 1)) /\
  (forall s status,
     session_head E (trace (outside s))
       (urljoin E base_url (str_of_Z (current_num s) ++ py "/")) = Ok status ->
     status ≠ 200 ->
     fst (loop_turn E base_url save_dir s) = Continue /\
     current_num (snd (loop_turn E base_url save_dir s)) = current_num s + 1) /\
  (forall s hrefs,
     let dir_url := urljoin E base_url (str_of_Z (current_num s) ++ py "/") in
     session_head E (trace (outside s)) dir_url = Ok 200 ->
     session_get E (trace (outside s) ++ [Head dir_url]) dir_url = Ok hrefs ->
     listing_files E dir_url hrefs = [] ->
     fst (loop_turn E base_url save_dir s) = Continue /\
     current_num (snd (loop_turn E base_url save_dir s)) = current_num s + 1) /\
  (forall s,
     fst (loop_try E base_url save_dir s) = Raised Exception ->
     fst (loop_turn E base_url save_dir s) = Continue /\
     current_num (snd (loop_turn E base_url save_dir s)) = current_num s + 1) /\
  (forall turns start_num w s',
     crawl_from_number E turns base_url start_num save_dir w = inr s' ->
     exists s0, fst (loop_try E base_url save_dir s0) = Raised KeyboardInterrupt) /\
  (never_interrupts E ->
   forall turns start_num w,
     exists s', crawl_from_number E turns base_url start_num save_dir w = inl s' /\
                current_num s' = start_num + Z.of_nat turns).
Proof.
  assert (forall s, fst (loop_turn E base_url save_dir s) = Continue ->
                    fst (loop_turn E base_url save_dir s) = Continue /\
                    current_num (snd (loop_turn E base_url save_dir s)) = current_num s + 1)
    as Hgo.
  { intros s Hc. split; [done|]. by apply loop_turn_spec. }
  split_and!.
  - intros s. apply loop_turn_spec.
  - intros s status Hhead Hne. apply Hgo.
    unfold loop_turn, loop_try. rewrite Hhead.
    by assert (negb (status =? 200) = true) as -> by (apply negb_true_iff; lia).
  - intros s hrefs dir_url Hhead Hget Hfiles. apply Hgo.
    unfold loop_turn, loop_try. fold dir_url. rewrite Hhead. simpl.
    by rewrite Hget, Hfiles.
  - intros s Hex. apply Hgo. unfold loop_turn.
    destruct (loop_try E base_url save_dir s) as [r s1]. simpl in Hex. by subst r.
  - intros turns start_num w s'. unfold crawl_from_number. apply run_break.
  - intros Hquiet turns start_num w. unfold crawl_from_number.
    apply (run_quiet E Hquiet base_url save_dir turns).
Qed.

End DownloaderClaims.

(* ===================================================================== *)
(** ** Further properties *)
(* ===================================================================== *)

Section FurtherProperties.

Lemma clean_chars_legal (name : str) :
  forallb (fun c => negb (illegal_char c)) (clean_chars name) = true.
Proof.
  induction name as [|c name IH]; simpl; [done|].
  rewrite IH, andb_true_r.
  destruct (illegal_char c) eqn:Hc; [reflexivity | by rewrite Hc].
Qed.

(** X1. [clean_name] leaves none of the nine characters of its pattern in a
    name, and every file entry of a parsed page carries a name cleaned that
    way. *)
Theorem file_names_are_sanitized (E : Craw.env) (url : str) (links : list Craw.anchor) :
  (forall name, forallb (fun c => negb (illegal_char c)) (Craw.clean_name name) = true) /\
  Forall (fun it => match it with
                    | Craw.FileItem name _ _ _ _ =>
                        forallb (fun c => negb (illegal_char c)) name = true
                    | Craw.FolderItem _ _ _ => True
                    end) (Craw.parse_links E url links).
Proof.
  split; [apply clean_chars_legal|].
  apply parse_links_Forall. intros link items Hitems.
  destruct (parse_link_adds E url link items)
    as [-> | [(raw & _ & _ & _ & _ & ->) | (raw & size & date & _ & _ & _ & _ & ->)]];
    [done| |]; apply Forall_app; (split; [done|]); repeat constructor.
  apply clean_chars_legal.
Qed.

(** X2. [download_file] lets no [Exception] out: it returns a boolean, or
    is cut short by a [KeyboardInterrupt]. *)
Theorem download_file_contains_failures (E : Freem.env) (url local_path : str) (w : Freem.world) :
  (exists b, fst (Freem.download_file E url local_path w) = Ok b)
  \/ fst (Freem.download_file E url local_path w) = Raised KeyboardInterrupt.
Proof.
  pose proof (download_file_no_Exception E url local_path w) as Hno.
  destruct (fst (Freem.download_file E url local_path w)) as [b|[]]; [eauto | done | by right].
Qed.


End FurtherProperties.

(* ===================================================================== *)
(** ** The dict operations *)
(* ===================================================================== *)

Section DictFacts.

Import Craw.

Context {V : Type}.

Lemma str_eqb_refl (s : str) : str_eqb s s = true.
Proof. by apply str_eqb_eq. Qed.

Lemma str_eqb_neq (s t : str) : str_eqb s t = false <-> s ≠ t.
Proof.
  split.
  - intros H Heq. apply str_eqb_eq in Heq. congruence.
  - intros H. apply not_true_is_false. intros Heq. by apply str_eqb_eq in Heq.
Qed.

Lemma dict_mem_keys (k : str) (d : dict V) : dict_mem k d = true <-> k ∈ keys d.
Proof.
  unfold dict_mem, keys. rewrite existsb_exists, list_elem_of_In, in_map_iff. split.
  - intros ([k' v] & Hin & Heq). apply str_eqb_eq in Heq. simpl in Heq. subst k'.
    by exists (k, v).
  - intros ([k' v] & Heq & Hin). simpl in Heq. subst k'.
    exists (k, v). split; [done | apply str_eqb_refl].
Qed.

Lemma dict_mem_false_keys (k : str) (d : dict V) : dict_mem k d = false <-> k ∉ keys d.
Proof.
  rewrite <- dict_mem_keys. by destruct (dict_mem k d).
Qed.

Lemma dict_mem_get (k : str) (d : dict V) : dict_mem k d = true <-> is_Some (dict_get k d).
Proof.
  induction d as [|[k' v] d IH]; simpl.
  - split; [done | by intros [? ?]].
  - unfold dict_mem in *. simpl. destruct (str_eqb k k'); simpl; [|exact IH].
    split; [by eexists | done].
Qed.

Lemma keys_dict_alter (f : V -> V) (k : str) (d : dict V) : keys (dict_alter f k d) = keys d.
Proof.
  unfold keys. induction d as [|[k' v] d IH]; simpl; [done|].
  destruct (str_eqb k k'); simpl; [done|]. by rewrite IH.
Qed.

Lemma keys_dict_set_fresh (k : str) (v : V) (d : dict V) :
  dict_mem k d = false -> keys (dict_set k v d) = keys d ++ [k].
Proof.
  unfold keys, dict_mem. induction d as [|[k' v'] d IH]; simpl; [done|].
  destruct (str_eqb k k'); simpl; [done|]. intros H. by rewrite IH.
Qed.

(** Insert, then look up. *)
Lemma dict_get_set_eq (k : str) (v : V) (d : dict V) : dict_get k (dict_set k v d) = Some v.
Proof.
  induction d as [|[k' v'] d IH]; simpl.
  - by rewrite str_eqb_refl.
  - destruct (str_eqb k k') eqn:Hk; simpl; by rewrite Hk.
Qed.

Lemma dict_get_set_ne (k k0 : str) (v : V) (d : dict V) :
  k0 ≠ k -> dict_get k0 (dict_set k v d) = dict_get k0 d.
Proof.
  intros Hne. induction d as [|[k' v'] d IH]; simpl.
  - by apply str_eqb_neq in Hne as ->.
  - destruct (str_eqb k k') eqn:Hk; simpl; [|by rewrite IH].
    apply str_eqb_eq in Hk. subst k'. by apply str_eqb_neq in Hne as ->.
Qed.

Lemma dict_get_alter_eq (f : V -> V) (k : str) (d : dict V) :
  dict_get k (dict_alter f k d) = f <$> dict_get k d.
Proof.
  induction d as [|[k' v'] d IH]; simpl; [done|].
  destruct (str_eqb k k') eqn:Hk; simpl; by rewrite Hk.
Qed.

Lemma dict_get_alter_ne (f : V -> V) (k k0 : str) (d : dict V) :
  k0 ≠ k -> dict_get k0 (dict_alter f k d) = dict_get k0 d.
Proof.
  intros Hne. induction d as [|[k' v'] d IH]; simpl; [done|].
  destruct (str_eqb k k') eqn:Hk; simpl; [|by rewrite IH].
  apply str_eqb_eq in Hk. subst k'. by apply str_eqb_neq in Hne as ->.
Qed.

End DictFacts.

(* ===================================================================== *)
(** ** The inventory while crawling *)
(* ===================================================================== *)

Section InventoryFacts.

Import Craw.

Context (E : env).

Lemma keeps_records_refl (c : crawler) : keeps_records c c.
Proof. by intros k Hk. Qed.

Lemma keeps_records_trans (c1 c2 c3 : crawler) :
  keeps_records c1 c2 -> keeps_records c2 c3 -> keeps_records c1 c3.
Proof.
  intros H12 H23 k Hk. rewrite <- (H12 k Hk). apply H23.
  apply dict_mem_get. rewrite (H12 k Hk). by apply dict_mem_get.
Qed.

Lemma keys_grow_refl (c : crawler) : keys_grow E c c.
Proof.
  exists []. rewrite app_nil_r. split_and!; [done | constructor |].
  intros k Hk. by apply elem_of_nil in Hk.
Qed.

Lemma keys_grow_same (c c' : crawler) :
  keys (file_structure c') = keys (file_structure c) -> keys_grow E c c'.
Proof.
  intros Hk. exists []. rewrite app_nil_r. split_and!; [done | constructor |].
  intros k Hin. by apply elem_of_nil in Hin.
Qed.

Lemma keys_grow_trans (c1 c2 c3 : crawler) :
  keys_grow E c1 c2 -> keys_grow E c2 c3 -> keys_grow E c1 c3.
Proof.
  intros (new1 & Hk1 & Hn1 & Hf1) (new2 & Hk2 & Hn2 & Hf2).
  exists (new1 ++ new2). split_and!.
  - by rewrite Hk2, Hk1, app_assoc.
  - apply NoDup_app. split_and!; [done| |done].
    intros k Hin1 Hin2. destruct (Hf2 k Hin2) as [Hnot _]. apply Hnot.
    rewrite Hk1. apply elem_of_app. by right.
  - intros k [Hin|Hin]%elem_of_app.
    + by apply Hf1.
    + destruct (Hf2 k Hin) as [Hnot Hd]. split; [|done].
      intros Hc. apply Hnot. rewrite Hk1. apply elem_of_app. by left.
Qed.

(** [parse_directory] does not touch the inventory. *)
Lemma parse_directory_file_structure (url : str) (depth : Z) (c : crawler) :
  file_structure (snd (parse_directory E url depth c)) = file_structure c.
Proof.
  unfold parse_directory. destruct (depth >? max_depth c); [done|].
  by destruct (bool_decide _).
Qed.


(** The loop of [crawl_folder]: the record under [folder_id] takes the
    items, the other records stay, and new keys are new digit strings. *)
Lemma crawl_items_inventory recurse (folder_id : str) (depth : Z) (items : list item) :
  (forall url d c r c', recurse url d c = Some (r, c') ->
                        r = Ok tt /\ keeps_records c c' /\ keys_grow E c c') ->
  forall c r c',
    dict_mem folder_id (file_structure c) = true ->
    crawl_items recurse folder_id depth items c = Some (r, c') ->
    dict_get folder_id (file_structure c')
    = record_items items <$> dict_get folder_id (file_structure c) /\
    (forall k, k ≠ folder_id -> dict_mem k (file_structure c) = true ->
               dict_get k (file_structure c') = dict_get k (file_structure c)) /\
    keys_grow E c c'.
Proof.
  intros Hrec. induction items as [|it items IH]; intros c r c' Hmem H; simpl in H.
  - injection H as <- <-. simpl. split_and!; [|done|apply keys_grow_refl].
    by destruct (dict_get folder_id (file_structure c)).
  - destruct it as [name u p | name u size date p].
    + destruct (recurse u (depth + 1) _) as [[[[]|e] c2]|] eqn:Hr; [| |done].
      2:{ by apply Hrec in Hr as [? _]. }
      apply Hrec in Hr as (_ & Hkeep & Hgrow).
      assert (dict_mem folder_id
                (file_structure (set_file_structure
                                   (dict_alter (add_subfolder name) folder_id) c)) = true)
        as Hmem1.
      { apply dict_mem_keys. simpl. rewrite keys_dict_alter. by apply dict_mem_keys. }
      assert (dict_mem folder_id (file_structure c2) = true) as Hmem2.
      { apply dict_mem_get. rewrite (Hkeep _ Hmem1). by apply dict_mem_get. }
      destruct (IH c2 r c' Hmem2 H) as (Hget & Hother & Hgrow2).
      split_and!.
      * rewrite Hget, (Hkeep _ Hmem1). simpl. rewrite dict_get_alter_eq.
        by destruct (dict_get folder_id (file_structure c)).
      * intros k Hne Hk.
        assert (dict_mem k (file_structure (set_file_structure
                              (dict_alter (add_subfolder name) folder_id) c)) = true) as Hk1.
        { apply dict_mem_keys. simpl. rewrite keys_dict_alter. by apply dict_mem_keys. }
        rewrite Hother; [|done|].
        -- rewrite (Hkeep _ Hk1). simpl. by rewrite dict_get_alter_ne.
        -- apply dict_mem_get. rewrite (Hkeep _ Hk1). by apply dict_mem_get.
      * eapply keys_grow_trans; [|exact Hgrow2]. eapply keys_grow_trans; [|exact Hgrow].
        apply keys_grow_same. simpl. apply keys_dict_alter.
    + match type of H with crawl_items _ _ _ _ ?c1 = _ => set (c1' := c1) in * end.
      assert (dict_mem folder_id (file_structure c1') = true) as Hmem1.
      { apply dict_mem_keys. simpl. rewrite keys_dict_alter. by apply dict_mem_keys. }
      destruct (IH c1' r c' Hmem1 H) as (Hget & Hother & Hgrow2).
      split_and!.
      * rewrite Hget. simpl. rewrite dict_get_alter_eq.
        by destruct (dict_get folder_id (file_structure c)).
      * intros k Hne Hk. rewrite Hother; [|done|].
        -- simpl. by rewrite dict_get_alter_ne.
        -- apply dict_mem_keys. simpl. rewrite keys_dict_alter. by apply dict_mem_keys.
      * eapply keys_grow_trans; [|exact Hgrow2].
        apply keys_grow_same. simpl. apply keys_dict_alter.
Qed.

(** [crawl_folder] keeps every record that is already stored, and the keys
    it adds are new digit strings. *)
Lemma crawl_folder_fuel_inventory (fuel : nat) :
  forall url depth c r c',
    crawl_folder_fuel E fuel url depth c = Some (r, c') ->
    r = Ok tt /\ keeps_records c c' /\ keys_grow E c c'.
Proof.
  induction fuel as [|fuel IH]; intros url depth c r c' H; simpl in H; [done|].
  destruct (depth >? max_depth c).
  { injection H as <- <-. split_and!; [done | apply keeps_records_refl | apply keys_grow_refl]. }
  destruct (negb (isdigit _ _)) eqn:Hdigit.
  { injection H as <- <-. split_and!; [done | apply keeps_records_refl | apply keys_grow_refl]. }
  destruct (dict_mem _ _) eqn:Hmem.
  { injection H as <- <-. split_and!; [done | apply keeps_records_refl | apply keys_grow_refl]. }
  pose proof (parse_directory_file_structure url depth c) as Hfs.
  destruct (parse_directory_returns E url depth c) as [items Hitems].
  destruct (parse_directory E url depth c) as [r1 c1]. simpl in *. subst r1.
  destruct items as [|it items].
  { injection H as <- <-. split_and!; [done | | apply keys_grow_same; by rewrite Hfs].
    intros k Hk. by rewrite Hfs. }
  set (folder_id := last_segment (rstrip_slash url)) in *.
  set (c2 := set_file_structure (dict_set folder_id (new_folder url)) c1) in *.
  assert (dict_mem folder_id (file_structure c2) = true) as Hmem2.
  { apply dict_mem_get. simpl. rewrite dict_get_set_eq. by eexists. }
  destruct (crawl_items_inventory _ folder_id depth (it :: items) IH c2 r c' Hmem2 H)
    as (_ & Hother & Hgrow).
  apply (crawl_items_spec _ _ _ _ (fun u d c0 r0 c0' H0 =>
           crawl_folder_fuel_spec E fuel u d c0 r0 c0' H0)) in H as [-> _].
  split_and!; [done| |].
  - intros k Hk. rewrite <- Hfs in Hk.
    assert (k ≠ folder_id) as Hne.
    { intros ->. rewrite Hfs in Hk. congruence. }
    rewrite Hother; [|done|].
    + simpl. rewrite dict_get_set_ne by done. by rewrite Hfs.
    + apply dict_mem_get. simpl. rewrite dict_get_set_ne by done. by apply dict_mem_get.
  - eapply keys_grow_trans; [|exact Hgrow].
    exists [folder_id]. simpl. rewrite Hfs. split_and!.
    + apply keys_dict_set_fresh. exact Hmem.
    + apply NoDup_singleton.
    + intros k ->%list_elem_of_singleton. split.
      * by apply dict_mem_false_keys.
      * by apply negb_false_iff in Hdigit.
Qed.

Lemma run_tasks_inventory (tasks : list (str * Z)) :
  forall c r c', run_tasks E tasks c = Some (r, c') -> keeps_records c c' /\ keys_grow E c c'.
Proof.
  induction tasks as [|[url depth] tasks IH]; intros c r c' H; simpl in H.
  - injection H as <- <-. split; [apply keeps_records_refl | apply keys_grow_refl].
  - destruct (crawl_folder E url depth c) as [[r1 c1]|] eqn:Hc; [|done].
    apply crawl_folder_fuel_inventory in Hc as (-> & Hk1 & Hg1).
    apply IH in H as [Hk2 Hg2].
    split; [by eapply keeps_records_trans | by eapply keys_grow_trans].
Qed.

End InventoryFacts.

(* ===================================================================== *)
(** ** Further properties of the crawler *)
(* ===================================================================== *)

Section CrawlerExtras.

Import Craw.

Context (E : env).






Lemma str_in_special_ends_with_slash (h : str) :
  str_in h [py "../"; py "./"] = true -> endswith (py "/") h = true.
Proof.
  unfold str_in. simpl. rewrite orb_false_r.
  intros [H|H]%orb_prop; apply str_eqb_eq in H; by subst h.
Qed.

(** X5. [is_valid_file] accepts exactly the hrefs that do not start with a
    question mark, do not end with a slash and hold none of the four sort
    markers; its test against [../] and [./] never decides anything, and the
    empty href is accepted. *)
Theorem is_valid_file_decides (h : str) :
  is_valid_file h
  = negb (startswith (py "?") h) && negb (endswith (py "/") h) && negb (has_sort_param h)
  /\ is_valid_file [] = true.
Proof.
  split; [|reflexivity].
  unfold is_valid_file, has_sort_param.
  destruct (startswith (py "?") h); [done|].
  destruct (endswith (py "/") h) eqn:He; [done|].
  destruct (str_in h [py "../"; py "./"]) eqn:Hs.
  - apply str_in_special_ends_with_slash in Hs. congruence.
  - cbn [orb negb andb]. by destruct (existsb _ sort_params).
Qed.

Lemma lstrip_by_all f (s : str) : forallb f s = true -> lstrip_by f s = [].
Proof.
  induction s as [|c s IH]; simpl; [done|].
  intros [Hc Hs]%andb_prop. rewrite Hc. by apply IH.
Qed.

(** X6. An href that is not empty but holds only whitespace passes the
    emptiness test, which comes before [strip]; it is then recorded as a
    file entry whose name is the empty string. *)
Theorem blank_href_is_a_file_entry (url : str) (link : anchor) (raw : str) (items : list item) :
  href link = Some raw -> raw ≠ [] -> forallb isspace raw = true ->
  exists size date,
    parse_link E url link items = items ++ [FileItem [] (urljoin E url []) size date url].
Proof.
  intros Hh Hne Hsp. unfold parse_link. rewrite Hh.
  destruct raw as [|x raw]; [done|].
  assert (strip (x :: raw) = []) as ->.
  { unfold strip. by rewrite (lstrip_by_all _ _ Hsp). }
  by eexists _, _.
Qed.

(** X7. From a fresh crawler, whatever tasks are run (and for [crawl]
    itself), the keys of [file_structure] are pairwise distinct and each
    passes [isdigit]. *)
Theorem inventory_keys_distinct_digits (base : str) (depth workers : Z) d :
  (forall tasks,
     exists c', run_tasks E tasks (init base depth workers d) = Some (Ok tt, c') /\
                NoDup (keys (file_structure c')) /\
                Forall (fun k => isdigit (digit_hi E) k = true) (keys (file_structure c'))) /\
  (exists c', crawl E (init base depth workers d) = Some (Ok tt, c') /\
              NoDup (keys (file_structure c')) /\
              Forall (fun k => isdigit (digit_hi E) k = true) (keys (file_structure c'))).
Proof.
  assert (forall tasks,
     exists c', run_tasks E tasks (init base depth workers d) = Some (Ok tt, c') /\
                NoDup (keys (file_structure c')) /\
                Forall (fun k => isdigit (digit_hi E) k = true) (keys (file_structure c')))
    as Hrun.
  { intros tasks.
    destruct (run_tasks_returns E tasks (init base depth workers d)) as (c' & Hrun & _).
    exists c'. split; [done|].
    apply run_tasks_inventory in Hrun as [_ (new & Hk & Hnd & Hf)].
    simpl in Hk. rewrite Hk. split; [done|].
    apply Forall_forall. intros k Hin. by apply Hf. }
  split; [exact Hrun|]. unfold crawl. apply Hrun.
Qed.





(** Any relation that is reflexive and transitive and holds across the two
    kinds of steps of the traversal holds across [crawl_folder]. *)
Lemma crawl_folder_fuel_rel (R : crawler -> crawler -> Prop) :
  (forall c, R c c) ->
  (forall c1 c2 c3, R c1 c2 -> R c2 c3 -> R c1 c3) ->
  (forall url depth c, R c (snd (parse_directory E url depth c))) ->
  (forall f c, R c (set_file_structure f c)) ->
  forall fuel url depth c r c', crawl_folder_fuel E fuel url depth c = Some (r, c') -> R c c'.
Proof.
  intros Hrefl Htrans Hparse Hset.
  assert (forall recurse folder_id depth items,
            (forall url d c r c', recurse url d c = Some (r, c') -> R c c') ->
            forall c r c', crawl_items recurse folder_id depth items c = Some (r, c') -> R c c')
    as Hitems.
  { intros recurse folder_id depth items Hrec.
    induction items as [|it items IH]; intros c r c' H; simpl in H.
    - by injection H as <- <-.
    - destruct it as [name u p | name u size date p].
      + destruct (recurse u (depth + 1) _) as [[[[]|e] c2]|] eqn:Hr; [| |done].
        * apply Hrec in Hr. apply IH in H. eauto.
        * injection H as <- <-. apply Hrec in Hr. eauto.
      + apply IH in H. eauto. }
  induction fuel as [|fuel IH]; intros url depth c r c' H; simpl in H; [done|].
  destruct (depth >? max_depth c); [by injection H as <- <-|].
  destruct (negb _); [by injection H as <- <-|].
  destruct (dict_mem _ _); [by injection H as <- <-|].
  pose proof (Hparse url depth c) as Hp.
  destruct (parse_directory E url depth c) as [[[|it items]|e] c1]; cbn [snd] in Hp.
  - by injection H as <- <-.
  - apply (Hitems _ _ _ _ IH) in H. eauto.
  - by injection H as <- <-.
Qed.

(** The crawl writes nothing to the disk. *)
Lemma run_tasks_disk (tasks : list (str * Z)) :
  forall c r c', run_tasks E tasks c = Some (r, c') -> disk c' = disk c.
Proof.
  induction tasks as [|[url depth] tasks IH]; intros c r c' H; simpl in H.
  - by injection H as <- <-.
  - destruct (crawl_folder E url depth c) as [[r1 c1]|] eqn:Hc; [|done].
    apply (crawl_folder_fuel_rel (fun c c' => disk c' = disk c)) in Hc.
    + destruct r1 as [[]|[]]; [| |injection H as <- <-; done];
        apply IH in H; congruence.
    + done.
    + intros; congruence.
    + intros u dp c0. unfold parse_directory. destruct (dp >? max_depth c0); [done|].
      by destruct (bool_decide _).
    + done.
Qed.

Lemma length_excel_rows (structure : dict folder_record) :
  length (excel_rows structure)
  = list_sum (List.map (fun kv => length (files (snd kv))) structure).
Proof.
  induction structure as [|[k rec] structure IH]; [done|].
  change (excel_rows ((k, rec) :: structure))
    with (match files rec with
          | [] => []
          | fs => List.map (file_row k rec) fs
          end ++ excel_rows structure).
  rewrite length_app, IH. cbn [List.map list_sum snd]. f_equal.
  destruct (files rec) as [|f fs]; [done|]. simpl. by rewrite List.length_map.
Qed.

Lemma json_is_not_excel : EXCEL_FILE ≠ JSON_FILE.
Proof. intros H. vm_compute in H. discriminate H. Qed.

(** X11. [main]: when the JSON file can be written, [main] ends normally;
    the JSON file on disk holds the structure whose length is logged as the
    number of folders; the logged number of files is the number of rows of
    the DataFrame; and the DataFrame is empty exactly when no folder is
    logged. When the JSON file cannot be written, [main] ends with that
    exception after the crawl, before any Excel sheet is generated. *)
Theorem main_totals_match_exports (d : gmap str document) :
  (can_write E JSON_FILE = true ->
   exists s c structure,
     main E d = Some (Ok s, c) /\
     disk c !! JSON_FILE = Some (JsonFile structure) /\
     total_folders s = length structure /\
     total_files s = length (df s) /\
     (df s = [] <-> total_folders s = 0%nat)) /\
  (can_write E JSON_FILE = false ->
   exists c, main E d = Some (Raised Exception, c) /\ disk c = d).
Proof.
  unfold main.
  unfold crawl.
  destruct (run_tasks_returns E
              (List.map (fun u => (u, 0)) (root_urls E (init BASE_URL 2 20 d)))
              (init BASE_URL 2 20 d)) as (c1 & Hrun & _).
  pose proof (run_tasks_disk _ _ _ _ Hrun) as Hd1. rewrite Hrun. clear Hrun.
  split.
  - intros Hw. unfold save_to_json. rewrite Hw.
    set (structure := List.filter _ (file_structure c1)).
    set (c2 := write_file JSON_FILE (JsonFile structure) c1).
    pose proof (generate_excel_rows E EXCEL_FILE c2) as Hrows.
    assert (disk (snd (generate_excel E EXCEL_FILE c2)) !! JSON_FILE
            = Some (JsonFile structure)) as Hdisk.
    { unfold generate_excel. destruct (excel_rows (file_structure c2)).
      - simpl. apply lookup_insert_eq.
      - destruct (can_write E EXCEL_FILE); simpl.
        + rewrite lookup_insert_ne by apply json_is_not_excel. apply lookup_insert_eq.
        + apply lookup_insert_eq. }
    destruct (generate_excel E EXCEL_FILE c2) as [r c3]. simpl in *. subst r.
    eexists _, c3, structure. split; [reflexivity|]. simpl.
    assert (excel_rows (file_structure c1) = excel_rows structure) as Hsame.
    { unfold structure. by rewrite excel_rows_filter. }
    rewrite Hsame. split_and!; [done | done | by rewrite length_excel_rows |].
    split.
    + intros Hnil. destruct structure as [|[k rec] structure'] eqn:Hs; [done|].
      assert ((k, rec) ∈ List.filter
                (fun kv : str * folder_record =>
                   match files (snd kv) with [] => false | _ => true end)
                (file_structure c1)) as Hin.
      { fold structure. rewrite Hs. by left. }
      apply list_elem_of_In, filter_In in Hin as [_ Hf]. simpl in Hf.
      apply (f_equal (@length _)) in Hnil. rewrite length_excel_rows in Hnil.
      simpl in Hnil. destruct (files rec); [done | simpl in Hnil; lia].
    + intros Hlen. by destruct structure.
  - intros Hw. unfold save_to_json. rewrite Hw.
    exists c1. by split.
Qed.

End CrawlerExtras.

(* ===================================================================== *)
(** ** Further properties of the downloader *)
(* ===================================================================== *)

Section DownloaderExtras.

Import Freem.

Context (E : env).

Lemma count_gets_app (t1 t2 : list event) : count_gets (t1 ++ t2) = (count_gets t1 + count_gets t2)%nat.
Proof. unfold count_gets. by rewrite List.filter_app, length_app. Qed.

Lemma heads_app (t1 t2 : list event) : heads (t1 ++ t2) = heads t1 ++ heads t2.
Proof. unfold heads. apply flat_map_app. Qed.

(** What the retry loop adds to the events, and what it leaves alone. *)
Lemma download_attempts_effect (n : nat) (url path : str) :
  forall w, exists added,
    trace (snd (download_attempts E n url path w)) = trace w ++ added /\
    Forall (fun e => e = Get url \/ e = Sleep 1) added /\
    (count_gets added <= n)%nat /\
    forall p, p ≠ path -> fs (snd (download_attempts E n url path w)) !! p = fs w !! p.
Proof.
  induction n as [|n IH]; intros w; cbn [download_attempts].
  - exists []. rewrite app_nil_r.
    split_and!; [done | constructor | unfold count_gets; simpl; lia | done].
  - pose proof (download_attempt_trace E url path w) as Ht.
    pose proof (fun p => download_attempt_fs_other E url path p w) as Hf.
    destruct (download_attempt E url path w) as [[[]|[]] w1]; cbn [fst snd] in *.
    + exists [Get url].
      split_and!; [done | constructor; [by left | constructor] | unfold count_gets; simpl; lia | done].
    + destruct (IH (log (Sleep 1) w1)) as (added & Ha & Hall & Hcount & Hfs).
      exists ([Get url; Sleep 1] ++ added). split_and!.
      * rewrite Ha. cbn [log trace]. rewrite Ht, <- !app_assoc. done.
      * apply Forall_app. split; [|done].
        constructor; [by left|]. constructor; [by right|]. constructor.
      * rewrite count_gets_app. change (count_gets [Get url; Sleep 1]) with 1%nat. lia.
      * intros p Hp. rewrite Hfs by done. cbn [log fs]. by apply Hf.
    + exists [Get url].
      split_and!; [done | constructor; [by left | constructor] | unfold count_gets; simpl; lia | done].
Qed.

Lemma download_file_effect (url local_path : str) (w : world) :
  exists added,
    trace (snd (download_file E url local_path w)) = trace w ++ added /\
    Forall (fun e => e = Get url \/ e = Sleep 1) added /\
    (count_gets added <= RETRIES)%nat /\
    forall p, p ≠ local_path -> fs (snd (download_file E url local_path w)) !! p = fs w !! p.
Proof.
  unfold download_file. destruct (exists_ local_path w).
  - exists []. rewrite app_nil_r.
    split_and!; [done | constructor | unfold count_gets; simpl; lia | done].
  - apply download_attempts_effect.
Qed.

(** X12. Whatever the server does, [download_file] only adds GETs for its
    url and one-second sleeps to what happened before, never more than
    [RETRIES] GETs, and it changes nothing on the disk but [local_path]. The
    downloads of a directory therefore send at most [RETRIES] GETs per
    file. *)
Theorem download_file_is_bounded (url local_path dir : str) (files : list str) (w : world) :
  (exists added,
     trace (snd (download_file E url local_path w)) = trace w ++ added /\
     Forall (fun e => e = Get url \/ e = Sleep 1) added /\
     (count_gets added <= RETRIES)%nat /\
     forall p, p ≠ local_path -> fs (snd (download_file E url local_path w)) !! p = fs w !! p) /\
  (count_gets (trace (snd (download_all E dir files w)))
   <= count_gets (trace w) + RETRIES * length files)%nat.
Proof.
  split; [apply download_file_effect|].
  revert w. induction files as [|f files IH]; intros w; cbn [download_all].
  - simpl. lia.
  - destruct (download_file_effect f (path_join E dir (basename E (url_path E f))) w)
      as (added & Ht & _ & Hc & _).
    destruct (download_file E f _ w) as [r w1]. cbn [snd] in Ht.
    specialize (IH w1). destruct (download_all E dir files w1) as [raised w2].
    cbn [snd] in *. rewrite Ht, count_gets_app in IH. cbn [length]. lia.
Qed.

Lemma download_attempt_ok_exists (url path : str) (w w1 : world) :
  download_attempt E url path w = (Ok tt, w1) -> exists_ path w1 = true.
Proof.
  unfold download_attempt.
  destruct (session_get_stream E (trace w) url) as [e|r]; [done|].
  destruct (raise_for_status (status_code r)); [|done].
  assert (forall w0 : world,
            match open_wb E (trace (log (Get url) w)) path with
            | Some e => (Raised e, w0)
            | None =>
                match stream_end r with
                | Some e => (Raised e, put path (File (write_chunks (chunks r))) w0)
                | None => (Ok tt, put path (File (write_chunks (chunks r))) w0)
                end
            end = (Ok tt, w1) -> exists_ path w1 = true) as Hrest.
  { intros w0. destruct (open_wb E _ path); [done|].
    destruct (stream_end r); [done|]. intros [= <-].
    unfold exists_, put. simpl. by rewrite lookup_insert_eq. }
  destruct (content_length r); [apply Hrest | apply Hrest | done].
Qed.

Lemma download_attempts_true (n : nat) (url path : str) :
  forall w, fst (download_attempts E n url path w) = Ok true ->
            exists_ path (snd (download_attempts E n url path w)) = true.
Proof.
  induction n as [|n IH]; intros w; cbn [download_attempts]; [done|].
  destruct (download_attempt E url path w) as [[[]|[]] w1] eqn:Hd; cbn [fst snd].
  - intros _. by apply (download_attempt_ok_exists url path w).
  - apply IH.
  - done.
Qed.

Lemma download_attempts_false (n : nat) (url path : str) :
  forall w, fst (download_attempts E n url path w) = Ok false ->
            (forall k, (k < n)%nat -> attempt_fails E url path k w) /\
            snd (download_attempts E n url path w) = retry_world E url path n w.
Proof.
  induction n as [|n IH]; intros w; cbn [download_attempts].
  - intros _. split; [intros k Hk; lia | done].
  - rewrite retry_world_S.
    destruct (download_attempt E url path w) as [[[]|[]] w1] eqn:Hd; cbn [fst snd]; try done.
    intros Hf. destruct (IH _ Hf) as [Hfail Hw]. split; [|done].
    intros [|k] Hk.
    + unfold attempt_fails. cbn [retry_world]. by rewrite Hd.
    + unfold attempt_fails. rewrite retry_world_S, Hd. cbn [snd].
      apply Hfail. lia.
Qed.

(** X13. What the boolean of [download_file] tells: after [True] something
    exists at [local_path]; [False] is returned only when nothing existed
    there and every one of the [RETRIES] attempts failed with an
    [Exception], each followed by its sleep. *)
Theorem download_file_result_meaning (url local_path : str) (w : world) :
  (fst (download_file E url local_path w) = Ok true ->
   exists_ local_path (snd (download_file E url local_path w)) = true) /\
  (fst (download_file E url local_path w) = Ok false ->
   exists_ local_path w = false /\
   (forall k, (k < RETRIES)%nat -> attempt_fails E url local_path k w) /\
   trace (snd (download_file E url local_path w))
   = trace w ++ concat (repeat [Get url; Sleep 1] RETRIES)).
Proof.
  unfold download_file. destruct (exists_ local_path w) eqn:He; cbn [fst snd].
  - split; [done | discriminate].
  - split; [apply download_attempts_true|].
    intros Hf. destruct (download_attempts_false _ _ _ _ Hf) as [Hfail ->].
    split_and!; [done | done | apply retry_world_trace].
Qed.

Lemma download_file_heads (url path : str) (w : world) :
  heads (trace (snd (download_file E url path w))) = heads (trace w).
Proof.
  destruct (download_file_effect url path w) as (added & -> & Hall & _).
  rewrite heads_app.
  assert (heads added = []) as ->; [|by rewrite app_nil_r].
  induction Hall as [|e added [->| ->] _ IH]; [done | exact IH | exact IH].
Qed.

Lemma download_all_heads (dir : str) (files : list str) :
  forall w, heads (trace (snd (download_all E dir files w))) = heads (trace w).
Proof.
  induction files as [|f files IH]; intros w; cbn [download_all]; [done|].
  pose proof (download_file_heads f (path_join E dir (basename E (url_path E f))) w) as Hh.
  destruct (download_file E f _ w) as [r w1]. cbn [snd] in Hh.
  specialize (IH w1). destruct (download_all E dir files w1) as [raised w2].
  cbn [snd] in *. congruence.
Qed.


(** A turn of the scan sends exactly one HEAD, for its own directory. *)
Lemma loop_try_heads (base_url save_dir : str) (s : state) :
  heads (trace (outside (snd (loop_try E base_url save_dir s))))
  = heads (trace (outside s)) ++ [urljoin E base_url (str_of_Z (current_num s) ++ py "/")].
Proof.
  unfold loop_try.
  set (dir_url := urljoin E base_url (str_of_Z (current_num s) ++ py "/")).
  assert (heads (trace (log (Head dir_url) (outside s)))
          = heads (trace (outside s)) ++ [dir_url]) as H1.
  { cbn [log trace]. by rewrite heads_app. }
  destruct (session_head E _ _) as [status|e]; [|done].
  destruct (negb (status =? 200)); [done|].
  assert (heads (trace (log (Get dir_url) (log (Head dir_url) (outside s))))
          = heads (trace (outside s)) ++ [dir_url]) as H2.
  { cbn [log trace] in *. rewrite heads_app, H1. simpl. by rewrite app_nil_r. }
  destruct (session_get E _ _) as [hrefs|e]; [|done].
  destruct (listing_files E dir_url hrefs) as [|f files]; [done|].
  set (dir := path_join E save_dir (str_of_Z (current_num s))).
  assert (heads (trace (log (Makedirs dir) (log (Get dir_url) (log (Head dir_url) (outside s)))))
          = heads (trace (outside s)) ++ [dir_url]) as H3.
  { cbn [log trace] in *. rewrite heads_app, H2. simpl. by rewrite app_nil_r. }
  destruct (makedirs E _ _) as [e|]; [done|].
  match goal with |- context [download_all E ?d ?fl ?w0] =>
    pose proof (download_all_heads d fl w0) as Hd; destruct (download_all E d fl w0) as [[e|] w4]
  end; cbn [snd outside] in *; by rewrite Hd.
Qed.

Lemma loop_turn_heads (base_url save_dir : str) (s : state) :
  heads (trace (outside (snd (loop_turn E base_url save_dir s))))
  = heads (trace (outside s)) ++ [urljoin E base_url (str_of_Z (current_num s) ++ py "/")].
Proof.
  pose proof (loop_try_heads base_url save_dir s) as H. unfold loop_turn.
  by destruct (loop_try E base_url save_dir s) as [[[]|[]] s1].
Qed.

Lemma run_probes (base_url save_dir : str) (turns : nat) :
  forall s s', run E turns base_url save_dir s = inl s' ->
    current_num s' = current_num s + Z.of_nat turns /\
    heads (trace (outside s'))
    = heads (trace (outside s))
      ++ List.map (fun i => urljoin E base_url (str_of_Z (current_num s + Z.of_nat i) ++ py "/"))
           (seq 0 turns).
Proof.
  induction turns as [|k IH]; intros s s' H; cbn [run] in H.
  - injection H as <-. simpl. rewrite app_nil_r. split; [lia | done].
  - pose proof (loop_turn_heads base_url save_dir s) as Hh.
    destruct (loop_turn_spec E base_url save_dir s) as [_ Hnext].
    destruct (loop_turn E base_url save_dir s) as [[] s1]; [|done]. cbn [fst snd] in *.
    specialize (Hnext eq_refl). destruct (IH s1 s' H) as [Hn Hheads].
    split; [lia|]. rewrite Hheads, Hh, <- app_assoc. f_equal.
    cbn [seq List.map]. rewrite Z.add_0_r. simpl. f_equal.
    rewrite <- seq_shift, List.map_map. apply map_ext. intros i.
    rewrite Hnext. do 3 f_equal. lia.
Qed.

(** X14. The scan probes the numbers one by one: while the loop is running,
    after [turns] turns it stands at [start_num + turns], and the HEAD
    requests sent so far are those for the directories [start_num],
    [start_num + 1], ... in this order, one each. *)
Theorem scan_probes_in_order (turns : nat) (base_url : str) (start_num : Z) (save_dir : str)
    (w : world) (s' : state) :
  crawl_from_number E turns base_url start_num save_dir w = inl s' ->
  current_num s' = start_num + Z.of_nat turns /\
  heads (trace (outside s'))
  = heads (trace w)
    ++ List.map (fun i => urljoin E base_url (str_of_Z (start_num + Z.of_nat i) ++ py "/"))
         (seq 0 turns).
Proof. unfold crawl_from_number. intros H. by apply run_probes in H. Qed.


End DownloaderExtras.

(* ===================================================================== *)
(** ** What the inventory holds *)
(* ===================================================================== *)

Section StoredRecords.

Import Craw.

Context (E : env).

Lemma record_ok_grows (c c' : crawler) (k : str) (rec : folder_record) :
  grows c c' -> record_ok c k rec -> record_ok c' k rec.
Proof.
  intros (_ & _ & new & Hr & _) (Hne & Hin & Hk). split_and!; [done| |done].
  rewrite Hr. apply elem_of_app. by left.
Qed.

(** A page with entries was fetched. *)
Lemma parse_directory_items_requested (url : str) (depth : Z) (c : crawler) it items :
  fst (parse_directory E url depth c) = Ok (it :: items) ->
  url ∈ requests (snd (parse_directory E url depth c)).
Proof.
  unfold parse_directory. destruct (depth >? max_depth c); [done|].
  destruct (bool_decide _); [done|]. intros _. simpl.
  apply elem_of_app. right. by apply list_elem_of_singleton.
Qed.

Lemma records_ok_alter (f : folder_record -> folder_record) (folder_id : str) (c : crawler) :
  (forall rec, folder_url (f rec) = folder_url rec) ->
  (forall rec, files (f rec) ≠ [] \/ subfolders (f rec) ≠ []) ->
  (forall k rec, k ≠ folder_id -> dict_get k (file_structure c) = Some rec -> record_ok c k rec) ->
  (forall rec, dict_get folder_id (file_structure c) = Some rec ->
               folder_url rec ∈ requests c /\
               folder_id = last_segment (rstrip_slash (folder_url rec))) ->
  records_ok (set_file_structure (dict_alter f folder_id) c).
Proof.
  intros Hurl Hne Hothers Hown k rec. cbn [file_structure set_file_structure].
  destruct (decide (k = folder_id)) as [->|Hk].
  - rewrite dict_get_alter_eq.
    destruct (dict_get folder_id (file_structure c)) as [rec0|] eqn:Hg; [|done].
    intros [= <-]. destruct (Hown rec0 eq_refl) as [Hin Hid].
    split_and!; [apply Hne | by rewrite Hurl | by rewrite Hurl].
  - rewrite dict_get_alter_ne by done. intros Hg. by apply Hothers.
Qed.

Lemma crawl_items_records recurse (folder_id : str) (depth : Z) (items : list item) :
  (forall url d c r c', recurse url d c = Some (r, c') ->
                        r = Ok tt /\ (records_ok c -> records_ok c')) ->
  forall c r c',
    crawl_items recurse folder_id depth items c = Some (r, c') ->
    (forall k rec, k ≠ folder_id -> dict_get k (file_structure c) = Some rec ->
                   record_ok c k rec) ->
    (forall rec, dict_get folder_id (file_structure c) = Some rec ->
                 folder_url rec ∈ requests c /\
                 folder_id = last_segment (rstrip_slash (folder_url rec))) ->
    (items = [] -> forall rec, dict_get folder_id (file_structure c) = Some rec ->
                               files rec ≠ [] \/ subfolders rec ≠ []) ->
    records_ok c'.
Proof.
  intros Hrec.
  assert (forall c0, records_ok c0 ->
            (forall k rec, k ≠ folder_id -> dict_get k (file_structure c0) = Some rec ->
                           record_ok c0 k rec) /\
            (forall rec, dict_get folder_id (file_structure c0) = Some rec ->
                         folder_url rec ∈ requests c0 /\
                         folder_id = last_segment (rstrip_slash (folder_url rec))) /\
            (forall rec, dict_get folder_id (file_structure c0) = Some rec ->
                         files rec ≠ [] \/ subfolders rec ≠ [])) as Hsplit.
  { intros c0 Hok. split_and!.
    - intros k rec _ Hg. by apply Hok.
    - intros rec Hg. by destruct (Hok _ _ Hg) as (_ & ? & ?).
    - intros rec Hg. by destruct (Hok _ _ Hg) as (? & _). }
  induction items as [|it items IH]; intros c r c' H Hothers Hown Hne; simpl in H.
  - injection H as <- <-. intros k rec Hg.
    destruct (decide (k = folder_id)) as [->|Hk]; [|by apply Hothers].
    destruct (Hown rec Hg) as [Hin Hid]. split_and!; [by apply (Hne eq_refl) | done | done].
  - destruct it as [name u p | name u size date p].
    + pose proof (records_ok_alter (add_subfolder name) folder_id c) as Hc1.
      destruct (recurse u (depth + 1) _) as [[[[]|e] c2]|] eqn:Hr; [| |done].
      2:{ by apply Hrec in Hr as [? _]. }
      apply Hrec in Hr as [_ Hok2].
      destruct (Hsplit c2) as (Ho2 & Hw2 & Hn2).
      { apply Hok2, Hc1; [done| |done|done].
        intros rec. right. simpl. by destruct (subfolders rec). }
      apply (IH c2 r c' H Ho2 Hw2). intros _. exact Hn2.
    + pose proof (records_ok_alter
                    (add_file {| original_name := name; file_url := u;
                                 file_size := size; file_date := date |}) folder_id c) as Hc1.
      match type of H with crawl_items _ _ _ _ ?c1 = _ =>
        destruct (Hsplit c1) as (Ho1 & Hw1 & Hn1)
      end.
      { apply Hc1; [done| |done|done].
        intros rec. left. simpl. by destruct (files rec). }
      apply (IH _ r c' H Ho1 Hw1). intros _. exact Hn1.
Qed.

Lemma crawl_folder_fuel_records (fuel : nat) :
  forall url depth c r c',
    crawl_folder_fuel E fuel url depth c = Some (r, c') ->
    r = Ok tt /\ (records_ok c -> records_ok c').
Proof.
  induction fuel as [|fuel IH]; intros url depth c r c' H.
  { done. }
  pose proof (crawl_folder_fuel_spec E (S fuel) url depth c r c' H) as [Hr _].
  split; [exact Hr|]. intros Hok. simpl in H.
  destruct (depth >? max_depth c); [by injection H as <- <-|].
  destruct (negb _); [by injection H as <- <-|].
  destruct (dict_mem _ _) eqn:Hmem; [by injection H as <- <-|].
  pose proof (parse_directory_grows E url depth c) as Hg.
  pose proof (parse_directory_file_structure E url depth c) as Hfs.
  pose proof (parse_directory_items_requested url depth c) as Hreq.
  destruct (parse_directory E url depth c) as [[[|it items]|e] c1]; cbn [fst snd] in *.
  - injection H as <- <-. intros k rec Hget. rewrite Hfs in Hget.
    by apply (record_ok_grows c c1), Hok.
  - set (folder_id := last_segment (rstrip_slash url)) in *.
    apply (crawl_items_records _ folder_id depth (it :: items) IH) in H; [done| | |done].
    + intros k rec Hk. cbn [file_structure set_file_structure].
      rewrite dict_get_set_ne, Hfs by done. intros Hget.
      by apply (record_ok_grows c c1), Hok.
    + intros rec. cbn [file_structure set_file_structure]. rewrite dict_get_set_eq.
      intros [= <-]. simpl. split; [by eapply Hreq | done].
  - injection H as <- <-. intros k rec Hget. rewrite Hfs in Hget.
    by apply (record_ok_grows c c1), Hok.
Qed.

(** X16. From a fresh crawler, whatever tasks are run, every record of
    [file_structure] belongs to a folder that was requested, lists at least
    one file or one subfolder, and is stored under the last segment of its
    own url. *)
Theorem stored_folders_were_fetched (base : str) (depth workers : Z) d
    (tasks : list (str * Z)) :
  exists c', run_tasks E tasks (init base depth workers d) = Some (Ok tt, c') /\
    forall k rec, dict_get k (file_structure c') = Some rec ->
      (files rec ≠ [] \/ subfolders rec ≠ []) /\
      folder_url rec ∈ requests c' /\
      k = last_segment (rstrip_slash (folder_url rec)).
Proof.
  assert (forall tasks c r c', run_tasks E tasks c = Some (r, c') ->
                               records_ok c -> records_ok c') as Hrun.
  { clear tasks. intros tasks. induction tasks as [|[url dp] tasks IH]; intros c r c' H Hok.
    - simpl in H. by injection H as <- <-.
    - simpl in H. destruct (crawl_folder E url dp c) as [[r1 c1]|] eqn:Hc; [|done].
      apply crawl_folder_fuel_records in Hc as [-> Hok1]. eapply IH; [exact H | by apply Hok1]. }
  destruct (run_tasks_returns E tasks (init base depth workers d)) as (c' & Hc' & _).
  exists c'. split; [done|]. apply (Hrun _ _ _ _ Hc'). by intros k rec Hget.
Qed.

End StoredRecords.

(* ===================================================================== *)
(** ** The properties at work on the small remote tree *)
(* ===================================================================== *)

(** Folders 1 and 4 are in memory (4 has a subfolder and no file); each url
    was requested once, the failing folder 2 included. *)
Example crawled_inventory :
  List.map fst (Craw.file_structure Demo.crawled) = [py "1"; py "4"]
  /\ Craw.requests Demo.crawled
     = [py "http://h/1/"; py "http://h/1/30/"; py "http://h/1/" ++ [178; 47]%N;
        py "http://h/2/"; py "http://h/4/"; py "http://h/4/7/"].
Proof. split; vm_compute; reflexivity. Qed.

(** Only folder 1 is persisted. *)
Example persisted_keys :
  match fst (Craw.save_to_json Demo.crawl_env (py "out.json") Demo.crawled) with
  | Ok filtered => List.map fst filtered
  | Raised _ => []
  end = [py "1"].
Proof. vm_compute. reflexivity. Qed.

(** The scan leaves the loop at the directory whose probe was interrupted. *)
Example interrupt_breaks :
  match Freem.crawl_from_number Demo.interrupted_env 10 (py "http://h/") 731 (py "d")
          Demo.empty_disk with
  | inr s => Freem.current_num s
  | inl _ => 0
  end = 733.
Proof. vm_compute. reflexivity. Qed.


Lemma folder_failure_contained_witness :
  fetch_failure (Craw.session_get Demo.crawl_env (Craw.requests Demo.fresh) (py "http://h/2/")) = true /\
  fst (Craw.parse_directory Demo.crawl_env (py "http://h/2/") 0 Demo.fresh) = Ok [] /\
  exists c', Craw.crawl_folder Demo.crawl_env (py "http://h/2/") 0 Demo.fresh = Some (Ok tt, c') /\
    Craw.file_structure c' = Craw.file_structure Demo.fresh /\
    (c' = Demo.fresh \/
     (c' = Craw.send (py "http://h/2/") (Craw.visit (py "http://h/2/") Demo.fresh) /\
      py "http://h/2/" ∈ Craw.visited_folders c' /\
      forall tasks, exists c'', Craw.run_tasks Demo.crawl_env tasks c' = Some (Ok tt, c'') /\
                                times_requested (py "http://h/2/") c''
                                = times_requested (py "http://h/2/") c')).
Proof.
  split; [reflexivity|].
  apply (proj2 (proj2 (proj2
           (folder_failure_contained Demo.crawl_env (py "http://h/2/") 0 Demo.fresh)))).
  reflexivity.
Defined.

(** The C8 claim fails: the superscript two passes [isdigit], so the link
    is kept as a folder, and its name is no string of decimal digits. *)
Lemma superscript_folder_is_kept :
  fst (Craw.parse_directory Demo.crawl_env (py "http://h/1/") 0 Demo.fresh)
  = Ok [Craw.FileItem (py "a.txt") (py "http://h/1/a.txt") (py "10") (py "2024-01-01")
          (py "http://h/1/");
        Craw.FolderItem (py "30") (py "http://h/1/30/") (py "http://h/1/");
        Craw.FolderItem [178%N] (py "http://h/1/" ++ [178; 47]%N) (py "http://h/1/")]
  /\ forallb ascii_digit [178%N] = false.
Proof. split; vm_compute; reflexivity. Qed.

Lemma folder_names_pass_isdigit_witness :
  Craw.href (Demo.link (py "42/")) = Some (py "42/") /\
  endswith (py "/") (strip (py "42/")) = true /\
  Craw.parse_link Demo.crawl_env (py "http://h/1/") (Demo.link (py "42/")) []
  = [Craw.FolderItem (py "42") (py "http://h/1/42/") (py "http://h/1/")].
Proof.
  split; [reflexivity|]. split; [reflexivity|].
  exact (proj1 (proj2 (folder_names_pass_isdigit Demo.crawl_env (py "http://h/1/") 0 Demo.fresh))
           (Demo.link (py "42/")) (py "42/") [] eq_refl ltac:(discriminate) eq_refl).
Defined.

Lemma persisted_inventory_has_files_witness :
  Craw.can_write Demo.crawl_env (py "out.json") = true /\
  exists filtered,
    Craw.save_to_json Demo.crawl_env (py "out.json") Demo.crawled
    = (Ok filtered, Craw.write_file (py "out.json") (Craw.JsonFile filtered) Demo.crawled) /\
    Craw.disk (snd (Craw.save_to_json Demo.crawl_env (py "out.json") Demo.crawled)) !! py "out.json"
    = Some (Craw.JsonFile filtered) /\
    (forall k rec, (k, rec) ∈ filtered <->
                   (k, rec) ∈ Craw.file_structure Demo.crawled /\ Craw.files rec ≠ []) /\
    sublist filtered (Craw.file_structure Demo.crawled) /\
    fst (Craw.generate_excel Demo.crawl_env (py "plan.xlsx") Demo.crawled)
    = Ok (Craw.excel_rows filtered) /\
    (forall r, r ∈ Craw.excel_rows filtered <->
               exists k rec f, (k, rec) ∈ Craw.file_structure Demo.crawled /\
                               f ∈ Craw.files rec /\ r = file_row k rec f).
Proof.
  split; [reflexivity|].
  apply (persisted_inventory_has_files Demo.crawl_env (py "out.json") (py "plan.xlsx") Demo.crawled).
  reflexivity.
Defined.

Lemma existing_file_is_skipped_witness :
  Freem.exists_ Demo.local_path Demo.leftover_disk = true /\
  Freem.download_file Demo.flaky_env Demo.file_url Demo.local_path Demo.leftover_disk
  = (Ok true, Demo.leftover_disk) /\
  Freem.trace (snd (Freem.download_file Demo.flaky_env Demo.file_url Demo.local_path
                      Demo.leftover_disk)) = Freem.trace Demo.leftover_disk /\
  Freem.fs (snd (Freem.download_file Demo.flaky_env Demo.file_url Demo.local_path
                   Demo.leftover_disk)) = Freem.fs Demo.leftover_disk.
Proof.
  split; [reflexivity|].
  apply (existing_file_is_skipped Demo.flaky_env Demo.file_url Demo.local_path Demo.leftover_disk).
  reflexivity.
Defined.

(** The C2 claim fails: every attempt fails, [False] is returned, and the
    chunk that arrived before the stream broke is left at [local_path]. *)
Lemma partial_file_is_left :
  Freem.exists_ Demo.local_path Demo.empty_disk = false /\
  attempt_fails Demo.cut_env Demo.file_url Demo.local_path 0 Demo.empty_disk /\
  attempt_fails Demo.cut_env Demo.file_url Demo.local_path 1 Demo.empty_disk /\
  attempt_fails Demo.cut_env Demo.file_url Demo.local_path 2 Demo.empty_disk /\
  fst (Freem.download_file Demo.cut_env Demo.file_url Demo.local_path Demo.empty_disk)
  = Ok false /\
  Freem.fs (snd (Freem.download_file Demo.cut_env Demo.file_url Demo.local_path
                   Demo.empty_disk)) !! Demo.local_path
  = Some (Freem.File Demo.abc).
Proof. split_and!; vm_compute; reflexivity. Qed.

Lemma failed_download_result_witness :
  Freem.exists_ Demo.local_path Demo.empty_disk = false /\
  (forall k, (k < Freem.RETRIES)%nat ->
             attempt_fails Demo.down_env Demo.file_url Demo.local_path k Demo.empty_disk) /\
  exists w',
    Freem.download_file Demo.down_env Demo.file_url Demo.local_path Demo.empty_disk
    = (Ok false, w') /\
    Freem.trace w'
    = [Freem.Get Demo.file_url; Freem.Sleep 1; Freem.Get Demo.file_url; Freem.Sleep 1;
       Freem.Get Demo.file_url; Freem.Sleep 1] /\
    Freem.fs w' !! Demo.local_path = None.
Proof.
  assert (forall k, (k < Freem.RETRIES)%nat ->
            attempt_fails Demo.down_env Demo.file_url Demo.local_path k Demo.empty_disk) as Hfail.
  { intros k Hk. destruct k as [|[|[|k]]]; [reflexivity | reflexivity | reflexivity |].
    exfalso. unfold Freem.RETRIES in Hk. lia. }
  split; [reflexivity|]. split; [exact Hfail|].
  destruct (failed_download_result Demo.down_env Demo.file_url Demo.local_path Demo.empty_disk
              eq_refl Hfail) as (w' & Hd & Ht & _ & Hf).
  exists w'. split; [exact Hd|]. split; [exact Ht | exact Hf].
Defined.

Lemma third_attempt_success_witness :
  Freem.exists_ Demo.local_path Demo.empty_disk = false /\
  attempt_fails Demo.flaky_env Demo.file_url Demo.local_path 0 Demo.empty_disk /\
  attempt_fails Demo.flaky_env Demo.file_url Demo.local_path 1 Demo.empty_disk /\
  exists w',
    Freem.download_file Demo.flaky_env Demo.file_url Demo.local_path Demo.empty_disk
    = (Ok true, w') /\
    Freem.fs w' !! Demo.local_path = Some (Freem.File (Demo.abc ++ Demo.def)) /\
    (forall p, p ≠ Demo.local_path -> Freem.fs w' !! p = Freem.fs Demo.empty_disk !! p) /\
    Freem.trace w'
    = [Freem.Get Demo.file_url; Freem.Sleep 1; Freem.Get Demo.file_url; Freem.Sleep 1;
       Freem.Get Demo.file_url].
Proof.
  split; [reflexivity|]. split; [reflexivity|]. split; [reflexivity|].
  apply (third_attempt_success Demo.flaky_env Demo.file_url Demo.local_path Demo.empty_disk
           Demo.good_response);
    [reflexivity | reflexivity | reflexivity | reflexivity | reflexivity | discriminate
    | reflexivity | reflexivity].
Defined.

Lemma scan_stops_only_on_interrupt_witness :
  never_interrupts Demo.down_env /\
  exists s', Freem.crawl_from_number Demo.down_env 5 (py "http://h/") 731 (py "d") Demo.empty_disk
             = inl s' /\
             Freem.current_num s' = 731 + Z.of_nat 5.
Proof.
  assert (never_interrupts Demo.down_env) as Hquiet.
  { unfold never_interrupts. split_and!; intros; discriminate. }
  split; [exact Hquiet|].
  apply (proj2 (proj2 (proj2 (proj2 (proj2
           (scan_stops_only_on_interrupt Demo.down_env (py "http://h/") (py "d"))))))).
  exact Hquiet.
Defined.


Lemma blank_href_is_a_file_entry_witness :
  Craw.href (Demo.link (py "  ")) = Some (py "  ") /\
  forallb isspace (py "  ") = true /\
  exists size date,
    Craw.parse_link Demo.crawl_env (py "http://h/1/") (Demo.link (py "  ")) []
    = [] ++ [Craw.FileItem [] (Craw.urljoin Demo.crawl_env (py "http://h/1/") []) size date
               (py "http://h/1/")].
Proof.
  split; [reflexivity|]. split; [reflexivity|].
  apply (blank_href_is_a_file_entry Demo.crawl_env (py "http://h/1/") (Demo.link (py "  "))
           (py "  ") []); [reflexivity | discriminate | reflexivity].
Defined.



Lemma main_totals_match_exports_witness :
  Craw.can_write Demo.crawl_env Craw.JSON_FILE = true /\
  exists s c structure,
    Craw.main Demo.crawl_env ∅ = Some (Ok s, c) /\
    Craw.disk c !! Craw.JSON_FILE = Some (Craw.JsonFile structure) /\
    Craw.total_folders s = length structure /\
    Craw.total_files s = length (Craw.df s) /\
    (Craw.df s = [] <-> Craw.total_folders s = 0%nat).
Proof.
  split; [reflexivity|].
  apply (proj1 (main_totals_match_exports Demo.crawl_env ∅)). reflexivity.
Defined.

Lemma download_file_result_meaning_witness :
  fst (Freem.download_file Demo.cut_env Demo.file_url Demo.local_path Demo.empty_disk) = Ok false /\
  Freem.exists_ Demo.local_path Demo.empty_disk = false /\
  (forall k, (k < Freem.RETRIES)%nat ->
             attempt_fails Demo.cut_env Demo.file_url Demo.local_path k Demo.empty_disk) /\
  Freem.trace (snd (Freem.download_file Demo.cut_env Demo.file_url Demo.local_path
                      Demo.empty_disk))
  = Freem.trace Demo.empty_disk
    ++ concat (repeat [Freem.Get Demo.file_url; Freem.Sleep 1] Freem.RETRIES).
Proof.
  assert (fst (Freem.download_file Demo.cut_env Demo.file_url Demo.local_path Demo.empty_disk)
          = Ok false) as Hf by (vm_compute; reflexivity).
  split; [exact Hf|].
  exact (proj2 (download_file_result_meaning Demo.cut_env Demo.file_url Demo.local_path
                  Demo.empty_disk) Hf).
Defined.

Lemma scan_probes_in_order_witness :
  Freem.crawl_from_number Demo.down_env 3 (py "http://h/") 731 (py "d") Demo.empty_disk
  = inl Demo.after_three_turns /\
  Freem.current_num Demo.after_three_turns = 731 + Z.of_nat 3 /\
  heads (Freem.trace (Freem.outside Demo.after_three_turns))
  = heads (Freem.trace Demo.empty_disk)
    ++ List.map (fun i => Freem.urljoin Demo.down_env (py "http://h/")
                            (str_of_Z (731 + Z.of_nat i) ++ py "/")) (seq 0 3).
Proof.
  assert (Freem.crawl_from_number Demo.down_env 3 (py "http://h/") 731 (py "d") Demo.empty_disk
          = inl Demo.after_three_turns) as Hrun by (vm_compute; reflexivity).
  split; [exact Hrun|].
  exact (scan_probes_in_order Demo.down_env 3 (py "http://h/") 731 (py "d") Demo.empty_disk
           Demo.after_three_turns Hrun).
Defined.

